(** * SemanticSphere: 6DOF input pipeline and camera navigation store

    A shallow embedding of [SpaceMouseController] (dead zone, inversion,
    sensitivity, motion buffer, per-axis smoothing, camera integration) and of
    the zustand [useNavigationStore] (camera pose, bounded history with
    back/forward, animating flag).

    Modelling conventions.
    - A JavaScript [number] is an exact rational ([Q]); binary64 rounding,
      NaN, infinities and signed zero are outside the model.  Equality of
      numbers is [Qeq] ([==]); [===] on numbers is [Qeq_bool].
    - The history index is an integer-valued number and is kept in [Z].
    - Store actions run in a small state-and-error monad over [World].  The
      only failing step is the read of a history slot that does not exist:
      JavaScript yields [undefined] there and the spread stores an object
      that is not a [CameraState].
    - [setTimeout] appends the delay to [timeouts]; every callback scheduled
      by the store does the same thing (clear [isAnimating]). *)

From Stdlib Require Import QArith Qabs Qminmax ZArith List Bool Lia Lqa.
From Stdlib Require String.
Import String.StringSyntax.
Import ListNotations.

Delimit Scope string_scope with string.

Local Open Scope Q_scope.

(** ** Numbers *)

Module Num.

(** [Math.sign]. *)
Definition sign (v : Q) : Q := inject_Z (Z.sgn (Qnum v)).

(** [a < b] on numbers. *)
Definition ltb (a b : Q) : bool := negb (Qle_bool b a).

(** [a > b] on numbers. *)
Definition gtb (a b : Q) : bool := ltb b a.

End Num.

(** ** Data model *)

(** [[number, number, number]] *)
Definition Vec3 : Type := (Q * Q * Q)%type.

Definition at0 (v : Vec3) : Q := fst (fst v).
Definition at1 (v : Vec3) : Q := snd (fst v).
Definition at2 (v : Vec3) : Q := snd v.

Record CameraState : Type := mkCamera {
  position : Vec3;
  target : Vec3;
  zoom : Q;
  fov : Q
}.

Record NavigationState : Type := mkNavigation {
  camera : CameraState;
  defaultCamera : CameraState;
  history : list CameraState;
  currentHistoryIndex : Z;
  isAnimating : bool;
  animationDuration : Q;
  isDragging : bool;
  isSpaceMouseActive : bool
}.

Module SpaceMouseMotion.
Record t : Type := mk {
  x : Q; y : Q; z : Q;
  rx : Q; ry : Q; rz : Q;
  timestamp : Q
}.
End SpaceMouseMotion.

(** The keys of [smoothingBuffer], in the order of the object literal. *)
Inductive Axis : Type := ax_x | ax_y | ax_z | ax_rx | ax_ry | ax_rz.

(** [motion[axis]] *)
Definition axisValue (m : SpaceMouseMotion.t) (a : Axis) : Q :=
  match a with
  | ax_x => SpaceMouseMotion.x m
  | ax_y => SpaceMouseMotion.y m
  | ax_z => SpaceMouseMotion.z m
  | ax_rx => SpaceMouseMotion.rx m
  | ax_ry => SpaceMouseMotion.ry m
  | ax_rz => SpaceMouseMotion.rz m
  end.

Record SpaceMouseSettings : Type := mkSettings {
  sensitivity : Q;
  invertX : bool; invertY : bool; invertZ : bool;
  invertRX : bool; invertRY : bool; invertRZ : bool;
  deadZone : Q;
  smoothing : Q
}.

Definition invertOf (s : SpaceMouseSettings) (a : Axis) : bool :=
  match a with
  | ax_x => invertX s | ax_y => invertY s | ax_z => invertZ s
  | ax_rx => invertRX s | ax_ry => invertRY s | ax_rz => invertRZ s
  end.

(** The mutable fields of the [SpaceMouseController] instance. *)
Record Controller : Type := mkController {
  motionBuffer : list SpaceMouseMotion.t;
  lastMotion : option SpaceMouseMotion.t;
  smoothingBuffer : Axis -> list Q
}.

(** Everything the modelled code reads or writes. [navigationMoves] counts
    the calls of [AudioManager.playNavigationMove]. *)
Record World : Type := mkWorld {
  nav : NavigationState;
  timeouts : list Q;
  settings : SpaceMouseSettings;
  controller : Controller;
  navigationMoves : nat
}.

(** ** The action monad *)

Definition M (A : Type) : Type := World -> option (A * World).

Definition ret {A} (a : A) : M A := fun w => Some (a, w).

Definition bind {A B} (m : M A) (k : A -> M B) : M B :=
  fun w => match m w with
           | Some (a, w') => k a w'
           | None => None
           end.

Notation "x <- m ;; k" := (bind m (fun x => k))
  (at level 61, m at next level, right associativity).
Notation "m ;;; k" := (bind m (fun _ => k))
  (at level 61, right associativity).

(** Final world of an action, when it has one. *)
Definition run {A} (m : M A) (w : World) : option World :=
  match m w with
  | Some (_, w') => Some w'
  | None => None
  end.

(** [get()] of the navigation store. *)
Definition get : M NavigationState := fun w => Some (nav w, w).

(** The world after the store's state went through [f]. *)
Definition mapNav (f : NavigationState -> NavigationState) (w : World)
  : World :=
  mkWorld (f (nav w)) (timeouts w) (settings w) (controller w)
          (navigationMoves w).

(** The world with one more pending timeout. *)
Definition schedule (delay : Q) (w : World) : World :=
  mkWorld (nav w) (timeouts w ++ [delay]) (settings w) (controller w)
          (navigationMoves w).

(** [set(fn)] of the navigation store. *)
Definition set (f : NavigationState -> NavigationState) : M unit :=
  fun w => Some (tt, mapNav f w).

(** [setTimeout(() => set({ isAnimating: false }), delay)] *)
Definition setTimeout (delay : Q) : M unit :=
  fun w => Some (tt, schedule delay w).

(** Spreading a value that may be [undefined] into a [CameraState]. *)
Definition spread (c : option CameraState) : M CameraState :=
  fun w => match c with
           | Some c => Some (c, w)
           | None => None
           end.

(** ** The partial objects passed to [set] *)

Definition withCamera (c : CameraState) (s : NavigationState) :=
  mkNavigation c (defaultCamera s) (history s) (currentHistoryIndex s)
               (isAnimating s) (animationDuration s) (isDragging s)
               (isSpaceMouseActive s).

Definition withAnimating (b : bool) (s : NavigationState) :=
  mkNavigation (camera s) (defaultCamera s) (history s)
               (currentHistoryIndex s) b (animationDuration s)
               (isDragging s) (isSpaceMouseActive s).

Definition withIndex (i : Z) (s : NavigationState) :=
  mkNavigation (camera s) (defaultCamera s) (history s) i
               (isAnimating s) (animationDuration s) (isDragging s)
               (isSpaceMouseActive s).

Definition withHistory (h : list CameraState) (s : NavigationState) :=
  mkNavigation (camera s) (defaultCamera s) h (currentHistoryIndex s)
               (isAnimating s) (animationDuration s) (isDragging s)
               (isSpaceMouseActive s).

Definition withDragging (b : bool) (s : NavigationState) :=
  mkNavigation (camera s) (defaultCamera s) (history s)
               (currentHistoryIndex s) (isAnimating s) (animationDuration s)
               b (isSpaceMouseActive s).

Definition withSpaceMouseActive (b : bool) (s : NavigationState) :=
  mkNavigation (camera s) (defaultCamera s) (history s)
               (currentHistoryIndex s) (isAnimating s) (animationDuration s)
               (isDragging s) b.

(** ** Arrays *)

(** [arr[i]] for an integer-valued [i]; [None] is [undefined]. *)
Definition index {A} (arr : list A) (i : Z) : option A :=
  if (i <? 0)%Z then None else nth_error arr (Z.to_nat i).

(** [arr.length] *)
Definition len {A} (arr : list A) : Z := Z.of_nat (length arr).

(** [arr.slice(0, e)]: a negative end counts from the end of the array. *)
Definition slice0 {A} (arr : list A) (e : Z) : list A :=
  if (e <? 0)%Z
  then firstn (Z.to_nat (Z.max (len arr + e) 0)) arr
  else firstn (Z.to_nat e) arr.

(** [arr.push(v)] *)
Definition push {A} (arr : list A) (v : A) : list A := arr ++ [v].

(** [arr.shift()] *)
Definition shift {A} (arr : list A) : list A := tl arr.

(** ** navigationStore *)

Definition defaultCameraState : CameraState :=
  mkCamera (0, 0, 10) (0, 0, 0) 1 75.

Definition initialNavigation : NavigationState :=
  mkNavigation defaultCameraState defaultCameraState [] (-1) false 1000
               false false.

Definition setCameraPosition (pos : Vec3) : M unit :=
  set (fun state =>
         withCamera (mkCamera pos (target (camera state))
                              (zoom (camera state)) (fov (camera state)))
                    state).

Definition setCameraTarget (tgt : Vec3) : M unit :=
  set (fun state =>
         withCamera (mkCamera (position (camera state)) tgt
                              (zoom (camera state)) (fov (camera state)))
                    state).

Definition setZoom (zm : Q) : M unit :=
  set (fun state =>
         withCamera (mkCamera (position (camera state))
                              (target (camera state))
                              (Qmax (1 # 10) (Qmin 10 zm))
                              (fov (camera state)))
                    state).

Definition resetCamera : M unit :=
  s <- get ;;
  set (fun state => withAnimating true (withCamera (defaultCamera s) state)) ;;;
  s' <- get ;;
  setTimeout (animationDuration s').

Definition maxHistorySize : Z := 50.

Definition addToHistory : M unit :=
  s <- get ;;
  let newHistory :=
    push (slice0 (history s) (currentHistoryIndex s + 1)) (camera s) in
  let newHistory :=
    if (maxHistorySize <? len newHistory)%Z then shift newHistory
    else newHistory in
  set (fun state =>
         withIndex (len newHistory - 1) (withHistory newHistory state)).

(** [target || currentCamera.target]: an array is always truthy. *)
Definition orElse {A} (o : option A) (d : A) : A :=
  match o with Some v => v | None => d end.

Definition animateToPosition (pos : Vec3) (tgt : option Vec3) : M unit :=
  s <- get ;;
  let currentCamera := camera s in
  let newTarget := orElse tgt (target currentCamera) in
  set (fun state =>
         withAnimating true
           (withCamera (mkCamera pos newTarget (zoom currentCamera)
                                 (fov currentCamera))
                       state)) ;;;
  addToHistory ;;;
  s' <- get ;;
  setTimeout (animationDuration s').

Definition navigateBack : M unit :=
  s <- get ;;
  if (0 <? currentHistoryIndex s)%Z then
    previousState <- spread (index (history s) (currentHistoryIndex s - 1)) ;;
    set (fun state =>
           withAnimating true
             (withIndex (currentHistoryIndex s - 1)
                        (withCamera previousState state))) ;;;
    s' <- get ;;
    setTimeout (animationDuration s')
  else ret tt.

Definition navigateForward : M unit :=
  s <- get ;;
  if (currentHistoryIndex s <? len (history s) - 1)%Z then
    nextState <- spread (index (history s) (currentHistoryIndex s + 1)) ;;
    set (fun state =>
           withAnimating true
             (withIndex (currentHistoryIndex s + 1)
                        (withCamera nextState state))) ;;;
    s' <- get ;;
    setTimeout (animationDuration s')
  else ret tt.

Definition setDragging (b : bool) : M unit := set (withDragging b).

Definition setSpaceMouseActive (b : bool) : M unit :=
  set (withSpaceMouseActive b).

(** What [updateFromThreeCamera] reads of a [THREE.Camera]: for a
    [THREE.PerspectiveCamera] its position, world direction, zoom and field
    of view. *)
Inductive ThreeCamera : Type :=
| PerspectiveCamera (pos direction : Vec3) (zm fv : Q)
| OtherCamera.

Definition updateFromThreeCamera (cam : ThreeCamera) : M unit :=
  match cam with
  | PerspectiveCamera pos direction zm fv =>
      let tgt : Vec3 :=
        (at0 pos + at0 direction * 10,
         at1 pos + at1 direction * 10,
         at2 pos + at2 direction * 10) in
      set (fun state => withCamera (mkCamera pos tgt zm fv) state)
  | OtherCamera => ret tt
  end.

(** A pending timeout fires: its callback clears the animating flag. *)
Definition timeoutFires : M unit :=
  fun w => match timeouts w with
           | [] => Some (tt, w)
           | _ :: rest =>
               Some (tt, mkWorld (withAnimating false (nav w)) rest
                                 (settings w) (controller w)
                                 (navigationMoves w))
           end.

(** ** SpaceMouseController *)

(** Reading and writing the fields of [this]. *)
Definition getThis : M Controller := fun w => Some (controller w, w).

Definition putThis (c : Controller) : M unit :=
  fun w => Some (tt, mkWorld (nav w) (timeouts w) (settings w) c
                             (navigationMoves w)).

(** [useSettingsStore.getState().spaceMouse] *)
Definition getSettings : M SpaceMouseSettings :=
  fun w => Some (settings w, w).

(** [AudioManager.getInstance().playNavigationMove()] *)
Definition playNavigationMove : M unit :=
  fun w => Some (tt, mkWorld (nav w) (timeouts w) (settings w)
                             (controller w) (S (navigationMoves w))).

(** The inner arrow function of [applyDeadZone]. *)
Definition applyDeadZoneToValue (deadZone : Q) (value : Q) : Q :=
  let absValue := Qabs value in
  if Num.ltb absValue deadZone then 0
  else
    let sign := Num.sign value in
    let scaledValue := (absValue - deadZone) / (1 - deadZone) in
    sign * scaledValue.

Definition applyDeadZone (motion : SpaceMouseMotion.t) (deadZone : Q)
  : SpaceMouseMotion.t :=
  SpaceMouseMotion.mk
    (applyDeadZoneToValue deadZone (SpaceMouseMotion.x motion))
    (applyDeadZoneToValue deadZone (SpaceMouseMotion.y motion))
    (applyDeadZoneToValue deadZone (SpaceMouseMotion.z motion))
    (applyDeadZoneToValue deadZone (SpaceMouseMotion.rx motion))
    (applyDeadZoneToValue deadZone (SpaceMouseMotion.ry motion))
    (applyDeadZoneToValue deadZone (SpaceMouseMotion.rz motion))
    (SpaceMouseMotion.timestamp motion).

Definition hasSignificantMotion (motion : SpaceMouseMotion.t) : bool :=
  let threshold := 1 # 100 in
  Num.gtb (Qabs (SpaceMouseMotion.x motion)) threshold ||
  Num.gtb (Qabs (SpaceMouseMotion.y motion)) threshold ||
  Num.gtb (Qabs (SpaceMouseMotion.z motion)) threshold ||
  Num.gtb (Qabs (SpaceMouseMotion.rx motion)) threshold ||
  Num.gtb (Qabs (SpaceMouseMotion.ry motion)) threshold ||
  Num.gtb (Qabs (SpaceMouseMotion.rz motion)) threshold.

(** [if (invert) v *= -1] *)
Definition invertIf (invert : bool) (v : Q) : Q :=
  if invert then v * -(1) else v.

(** The value of [processedMotion] when [handleMotion] pushes it: dead
    zone, then the inversion settings, then the sensitivity. *)
Definition processedMotionOf (st : SpaceMouseSettings)
  (motion : SpaceMouseMotion.t) : SpaceMouseMotion.t :=
  let dz := applyDeadZone motion (deadZone st) in
  SpaceMouseMotion.mk
    (invertIf (invertX st) (SpaceMouseMotion.x dz) * sensitivity st)
    (invertIf (invertY st) (SpaceMouseMotion.y dz) * sensitivity st)
    (invertIf (invertZ st) (SpaceMouseMotion.z dz) * sensitivity st)
    (invertIf (invertRX st) (SpaceMouseMotion.rx dz) * sensitivity st)
    (invertIf (invertRY st) (SpaceMouseMotion.ry dz) * sensitivity st)
    (invertIf (invertRZ st) (SpaceMouseMotion.rz dz) * sensitivity st)
    (SpaceMouseMotion.timestamp dz).

Definition handleMotion (motion : SpaceMouseMotion.t) : M unit :=
  st <- getSettings ;;
  let processedMotion := processedMotionOf st motion in
  this <- getThis ;;
  let buffer := push (motionBuffer this) processedMotion in
  let buffer := if (10 <? len buffer)%Z then shift buffer else buffer in
  putThis (mkController buffer (Some processedMotion)
                        (smoothingBuffer this)) ;;;
  setSpaceMouseActive true ;;;
  if hasSignificantMotion processedMotion then playNavigationMove
  else ret tt.

(** The [for] loop of [calculateSmoothedValue]: [i] runs while
    [i < buffer.length]; [fuel] bounds the number of iterations. *)
Fixpoint smoothingLoop (smoothingFactor : Q) (buffer : list Q)
  (fuel : nat) (i : nat) (smoothed : Q) : Q :=
  match fuel with
  | O => smoothed
  | S fuel' =>
      match nth_error buffer i with
      | Some b =>
          smoothingLoop smoothingFactor buffer fuel' (S i)
            (smoothingFactor * smoothed + (1 - smoothingFactor) * b)
      | None => smoothed
      end
  end.

Definition calculateSmoothedValue (this : Controller) (axis : Axis)
  (smoothingFactor : Q) : Q :=
  let buffer := smoothingBuffer this axis in
  match buffer with
  | [] => 0
  | b0 :: _ =>
      if Qeq_bool smoothingFactor 0 then last buffer b0
      else smoothingLoop smoothingFactor buffer (length buffer) 1 b0
  end.

Definition applySmoothingFilter (smoothingFactor : Q)
  : M (option SpaceMouseMotion.t) :=
  this <- getThis ;;
  match rev (motionBuffer this) with
  | [] => ret None
  | latest :: _ =>
      let buffers := fun axis =>
        let b := push (smoothingBuffer this axis) (axisValue latest axis) in
        if (5 <? len b)%Z then shift b else b in
      let this' := mkController (motionBuffer this) (lastMotion this)
                                buffers in
      putThis this' ;;;
      ret (Some (SpaceMouseMotion.mk
                   (calculateSmoothedValue this' ax_x smoothingFactor)
                   (calculateSmoothedValue this' ax_y smoothingFactor)
                   (calculateSmoothedValue this' ax_z smoothingFactor)
                   (calculateSmoothedValue this' ax_rx smoothingFactor)
                   (calculateSmoothedValue this' ax_ry smoothingFactor)
                   (calculateSmoothedValue this' ax_rz smoothingFactor)
                   (SpaceMouseMotion.timestamp latest)))
  end.

Definition deltaTime : Q := 16 # 1000.
Definition translationSpeed : Q := 5.
Definition rotationSpeed : Q := 1.

Definition applyMotionToCamera (motion : SpaceMouseMotion.t) : M unit :=
  navigationStore <- get ;;
  let currentCamera := camera navigationStore in
  let newPosition : Vec3 :=
    (at0 (position currentCamera)
       + SpaceMouseMotion.x motion * translationSpeed * deltaTime,
     at1 (position currentCamera)
       + SpaceMouseMotion.y motion * translationSpeed * deltaTime,
     at2 (position currentCamera)
       + SpaceMouseMotion.z motion * translationSpeed * deltaTime) in
  let newTarget : Vec3 :=
    (at0 (target currentCamera)
       + SpaceMouseMotion.rx motion * rotationSpeed * deltaTime,
     at1 (target currentCamera)
       + SpaceMouseMotion.ry motion * rotationSpeed * deltaTime,
     at2 (target currentCamera)
       + SpaceMouseMotion.rz motion * rotationSpeed * deltaTime) in
  setCameraPosition newPosition ;;;
  setCameraTarget newTarget.

(** One animation frame: the body of [processMotion]. *)
Definition processMotion : M unit :=
  this <- getThis ;;
  if (0 <? len (motionBuffer this))%Z then
    st <- getSettings ;;
    smoothedMotion <- applySmoothingFilter (smoothing st) ;;
    match smoothedMotion with
    | Some m => applyMotionToCamera m
    | None => ret tt
    end
  else ret tt.

Definition initialController : Controller :=
  mkController [] None (fun _ => []).

Definition defaultSettings : SpaceMouseSettings :=
  mkSettings 1 false false false false false false (1 # 10) (8 # 10).

(** ** Smoothing, in the words of the specification *)

(** The blend of one step, in the spec's words:
    [smoothed = α·smoothed + (1−α)·next]. *)
Definition blend (alpha : Q) (smoothed next : Q) : Q :=
  alpha * smoothed + (1 - alpha) * next.

(** The spec's smoothed value of a window, oldest first: the left fold of
    [blend] over the later values, starting from the oldest one. *)
Definition blendWindow (alpha : Q) (window : list Q) : Q :=
  match window with
  | [] => 0
  | v0 :: rest => fold_left (blend alpha) rest v0
  end.

(** ** Sequences of calls *)

(** The calls that the event handlers and the frame loop make. *)
Inductive Action : Type :=
| AddToHistory
| NavigateBack
| NavigateForward
| ResetCamera
| AnimateToPosition (pos : Vec3) (tgt : option Vec3)
| SetCameraPosition (pos : Vec3)
| SetCameraTarget (tgt : Vec3)
| SetZoom (zm : Q)
| SetDragging (b : bool)
| SetSpaceMouseActive (b : bool)
| UpdateFromThreeCamera (cam : ThreeCamera)
| TimeoutFires
| HandleMotion (motion : SpaceMouseMotion.t)
| ProcessMotion.

Definition perform (a : Action) : M unit :=
  match a with
  | AddToHistory => addToHistory
  | NavigateBack => navigateBack
  | NavigateForward => navigateForward
  | ResetCamera => resetCamera
  | AnimateToPosition pos tgt => animateToPosition pos tgt
  | SetCameraPosition pos => setCameraPosition pos
  | SetCameraTarget tgt => setCameraTarget tgt
  | SetZoom zm => setZoom zm
  | SetDragging b => setDragging b
  | SetSpaceMouseActive b => setSpaceMouseActive b
  | UpdateFromThreeCamera cam => updateFromThreeCamera cam
  | TimeoutFires => timeoutFires
  | HandleMotion motion => handleMotion motion
  | ProcessMotion => processMotion
  end.

(** The calls of a list, one after the other. *)
Fixpoint performAll (l : list Action) : M unit :=
  match l with
  | [] => ret tt
  | a :: l' => perform a ;;; performAll l'
  end.

(** The same call [n] times. *)
Fixpoint times (n : nat) (m : M unit) : M unit :=
  match n with
  | O => ret tt
  | S n' => m ;;; times n' m
  end.

(** The world at start-up, for any configuration. *)
Definition startWorld (st : SpaceMouseSettings) : World :=
  mkWorld initialNavigation [] st initialController 0.

(** ** Statements about the history *)

(** The index points at an entry, or is -1 when there is none. *)
Definition indexValid (s : NavigationState) : Prop :=
  (currentHistoryIndex s = (-1)%Z <-> history s = []) /\
  (history s <> [] ->
   (0 <= currentHistoryIndex s < len (history s))%Z).

(** The history holds at most [maxHistorySize] snapshots. *)
Definition withinCapacity (s : NavigationState) : Prop :=
  (len (history s) <= maxHistorySize)%Z.

(** The pose [animateToPosition pos tgt] leaves, from the pose [c]. *)
Definition poseAfter (c : CameraState) (call : Vec3 * option Vec3)
  : CameraState :=
  mkCamera (fst call) (orElse (snd call) (target c)) (zoom c) (fov c).

(** The poses a list of [animateToPosition] calls goes through. *)
Fixpoint posesFrom (c : CameraState) (calls : list (Vec3 * option Vec3))
  : list CameraState :=
  match calls with
  | [] => []
  | call :: rest => poseAfter c call :: posesFrom (poseAfter c call) rest
  end.

Definition animateCalls (calls : list (Vec3 * option Vec3)) : list Action :=
  map (fun call => AnimateToPosition (fst call) (snd call)) calls.

(** The history [addToHistory] stores, from a state. *)
Definition committed (s : NavigationState) : list CameraState :=
  let newHistory :=
    push (slice0 (history s) (currentHistoryIndex s + 1)) (camera s) in
  if (maxHistorySize <? len newHistory)%Z then shift newHistory
  else newHistory.

(** What every reachable state of the store satisfies. *)
Definition historyInv (s : NavigationState) : Prop :=
  indexValid s /\ withinCapacity s.


(** ** Readings of the specification that the code does not follow *)

(** "Reset and animate-to each grow the history by one snapshot; the
    per-frame setters leave the history and its index alone." *)
Definition everyDiscreteCallSnapshots : Prop :=
  forall w,
    (exists w', run resetCamera w = Some w' /\
       length (history (nav w')) = S (length (history (nav w)))) /\
    (forall pos tgt, exists w',
       run (animateToPosition pos tgt) w = Some w' /\
       length (history (nav w')) = S (length (history (nav w)))) /\
    (forall pos, exists w',
       run (setCameraPosition pos) w = Some w' /\
       history (nav w') = history (nav w) /\
       currentHistoryIndex (nav w') = currentHistoryIndex (nav w)) /\
    (forall tgt, exists w',
       run (setCameraTarget tgt) w = Some w' /\
       history (nav w') = history (nav w) /\
       currentHistoryIndex (nav w') = currentHistoryIndex (nav w)).

(** "After N discrete navigation calls, N <= capacity, N calls of
    historyBack return to the initial pose, and one more call leaves the
    pose as it is." *)
Definition backReturnsToInitialPose : Prop :=
  forall st calls,
    (length calls <= 50)%nat ->
    exists w1 w2 w3,
      run (performAll (animateCalls calls)) (startWorld st) = Some w1 /\
      run (times (length calls) navigateBack) w1 = Some w2 /\
      camera (nav w2) = camera (nav (startWorld st)) /\
      run navigateBack w2 = Some w3 /\
      camera (nav w3) = camera (nav w2).

(** "Every processed sample pushed into the motion buffer has each axis
    within the valid range": the raw range [-1, 1], scaled by the
    sensitivity. *)
Definition pushedSamplesInRange : Prop :=
  forall w motion axis,
    0 <= deadZone (settings w) -> deadZone (settings w) < 1 ->
    0 < sensitivity (settings w) ->
    exists w',
      run (handleMotion motion) w = Some w' /\
      Qabs (axisValue (last (motionBuffer (controller w')) motion) axis)
      <= sensitivity (settings w).

(** ** Keyboard fallback *)

(** The [keyState] object of [setupKeyboardFallback]: what each entry is
    worth in a condition (a key never written reads [undefined]). *)
Definition KeyState : Type := String.string -> bool.

(** [keyState[code] = pressed] *)
Definition setKey (keyState : KeyState) (code : String.string)
  (pressed : bool) : KeyState :=
  fun c => if String.eqb c code then pressed else keyState c.

(** No key was touched yet. *)
Definition noKeys : KeyState := fun _ => false.

(** [processKeyboardInput]; [now] is the value of [Date.now()]. *)
Definition processKeyboardInput (keyState : KeyState) (now : Q) : M unit :=
  st <- getSettings ;;
  let sensitivity := sensitivity st * (1 # 10) in
  let x := 0 in let y := 0 in let z := 0 in
  let rx := 0 in let ry := 0 in let rz := 0 in
  let x := if keyState "KeyA"%string then x - sensitivity else x in
  let x := if keyState "KeyD"%string then x + sensitivity else x in
  let z := if keyState "KeyW"%string then z - sensitivity else z in
  let z := if keyState "KeyS"%string then z + sensitivity else z in
  let y := if keyState "KeyQ"%string then y + sensitivity else y in
  let y := if keyState "KeyE"%string then y - sensitivity else y in
  let ry := if keyState "ArrowLeft"%string then ry - sensitivity else ry in
  let ry := if keyState "ArrowRight"%string then ry + sensitivity else ry in
  let rx := if keyState "ArrowUp"%string then rx - sensitivity else rx in
  let rx := if keyState "ArrowDown"%string then rx + sensitivity else rx in
  let rz := if keyState "ShiftLeft"%string || keyState "ShiftRight"%string
            then rz - sensitivity else rz in
  let rz := if keyState "ControlLeft"%string || keyState "ControlRight"%string
            then rz + sensitivity else rz in
  if negb (Qeq_bool x 0) || negb (Qeq_bool y 0) || negb (Qeq_bool z 0) ||
     negb (Qeq_bool rx 0) || negb (Qeq_bool ry 0) || negb (Qeq_bool rz 0)
  then handleMotion (SpaceMouseMotion.mk x y z rx ry rz now)
  else ret tt.

(** The [keydown] listener: the new key state and what runs. *)
Definition handleKeyDown (keyState : KeyState) (code : String.string)
  (now : Q) : KeyState * M unit :=
  let keyState' := setKey keyState code true in
  (keyState', processKeyboardInput keyState' now).

(** The [keyup] listener. *)
Definition handleKeyUp (keyState : KeyState) (code : String.string)
  (now : Q) : KeyState * M unit :=
  let keyState' := setKey keyState code false in
  (keyState', processKeyboardInput keyState' now).

(** The key codes the fallback reads. *)
Definition mappedKeys : list String.string :=
  ["KeyA"; "KeyD"; "KeyW"; "KeyS"; "KeyQ"; "KeyE";
   "ArrowLeft"; "ArrowRight"; "ArrowUp"; "ArrowDown";
   "ShiftLeft"; "ShiftRight"; "ControlLeft"; "ControlRight"]%string.

(** The sample [processKeyboardInput] builds from the held keys, for the
    per-key step [s]. *)
Definition keyboardSample (keyState : KeyState) (s : Q) (now : Q)
  : SpaceMouseMotion.t :=
  let x := 0 in let y := 0 in let z := 0 in
  let rx := 0 in let ry := 0 in let rz := 0 in
  let x := if keyState "KeyA"%string then x - s else x in
  let x := if keyState "KeyD"%string then x + s else x in
  let z := if keyState "KeyW"%string then z - s else z in
  let z := if keyState "KeyS"%string then z + s else z in
  let y := if keyState "KeyQ"%string then y + s else y in
  let y := if keyState "KeyE"%string then y - s else y in
  let ry := if keyState "ArrowLeft"%string then ry - s else ry in
  let ry := if keyState "ArrowRight"%string then ry + s else ry in
  let rx := if keyState "ArrowUp"%string then rx - s else rx in
  let rx := if keyState "ArrowDown"%string then rx + s else rx in
  let rz := if keyState "ShiftLeft"%string || keyState "ShiftRight"%string
            then rz - s else rz in
  let rz := if keyState "ControlLeft"%string || keyState "ControlRight"%string
            then rz + s else rz in
  SpaceMouseMotion.mk x y z rx ry rz now.

(** [x !== 0 || y !== 0 || ...] on the axes of a sample. *)
Definition anyAxisNonZero (m : SpaceMouseMotion.t) : bool :=
  negb (Qeq_bool (SpaceMouseMotion.x m) 0) ||
  negb (Qeq_bool (SpaceMouseMotion.y m) 0) ||
  negb (Qeq_bool (SpaceMouseMotion.z m) 0) ||
  negb (Qeq_bool (SpaceMouseMotion.rx m) 0) ||
  negb (Qeq_bool (SpaceMouseMotion.ry m) 0) ||
  negb (Qeq_bool (SpaceMouseMotion.rz m) 0).

(** Every pair of opposite keys is either held together or not at all. *)
Definition keysBalanced (keyState : KeyState) : Prop :=
  keyState "KeyA"%string = keyState "KeyD"%string /\
  keyState "KeyW"%string = keyState "KeyS"%string /\
  keyState "KeyQ"%string = keyState "KeyE"%string /\
  keyState "ArrowLeft"%string = keyState "ArrowRight"%string /\
  keyState "ArrowUp"%string = keyState "ArrowDown"%string /\
  (keyState "ShiftLeft"%string || keyState "ShiftRight"%string)
  = (keyState "ControlLeft"%string || keyState "ControlRight"%string).

(** ** One frame, spelled out *)

(** The smoothing windows after [applySmoothingFilter] took [latest]. *)
Definition windowsAfter (c : Controller) (latest : SpaceMouseMotion.t)
  : Axis -> list Q :=
  fun axis =>
    let b := push (smoothingBuffer c axis) (axisValue latest axis) in
    if (5 <? len b)%Z then shift b else b.

(** The sample [applySmoothingFilter] returns from the windows of [c]. *)
Definition smoothedOf (c : Controller) (smoothingFactor : Q)
  (latest : SpaceMouseMotion.t) : SpaceMouseMotion.t :=
  SpaceMouseMotion.mk
    (calculateSmoothedValue c ax_x smoothingFactor)
    (calculateSmoothedValue c ax_y smoothingFactor)
    (calculateSmoothedValue c ax_z smoothingFactor)
    (calculateSmoothedValue c ax_rx smoothingFactor)
    (calculateSmoothedValue c ax_ry smoothingFactor)
    (calculateSmoothedValue c ax_rz smoothingFactor)
    (SpaceMouseMotion.timestamp latest).

(** The pose [applyMotionToCamera] leaves, from the pose [cam]. *)
Definition integrated (cam : CameraState) (motion : SpaceMouseMotion.t)
  : CameraState :=
  mkCamera
    (at0 (position cam)
       + SpaceMouseMotion.x motion * translationSpeed * deltaTime,
     at1 (position cam)
       + SpaceMouseMotion.y motion * translationSpeed * deltaTime,
     at2 (position cam)
       + SpaceMouseMotion.z motion * translationSpeed * deltaTime)
    (at0 (target cam)
       + SpaceMouseMotion.rx motion * rotationSpeed * deltaTime,
     at1 (target cam)
       + SpaceMouseMotion.ry motion * rotationSpeed * deltaTime,
     at2 (target cam)
       + SpaceMouseMotion.rz motion * rotationSpeed * deltaTime)
    (zoom cam) (fov cam).

(** The world after a frame that found [latest] as the newest sample. *)
Definition frameStep (latest : SpaceMouseMotion.t) (w : World) : World :=
  let c' := mkController (motionBuffer (controller w))
                         (lastMotion (controller w))
                         (windowsAfter (controller w) latest) in
  mkWorld
    (withCamera
       (integrated (camera (nav w))
                   (smoothedOf c' (smoothing (settings w)) latest))
       (nav w))
    (timeouts w) (settings w) c' (navigationMoves w).

(** The motion buffer after [handleMotion] pushed [p]. *)
Definition bufferAfter (c : Controller) (p : SpaceMouseMotion.t)
  : list SpaceMouseMotion.t :=
  let b := push (motionBuffer c) p in
  if (10 <? len b)%Z then shift b else b.

(** One smoothing window after it took the value [v]. *)
Definition pushWindow (v : Q) (window : list Q) : list Q :=
  let b := push window v in
  if (5 <? len b)%Z then shift b else b.

(** The world after [k] frames that all found [latest] as the newest
    sample. *)
Fixpoint frames (k : nat) (latest : SpaceMouseMotion.t) (w : World) : World :=
  match k with
  | O => w
  | S k' => frames k' latest (frameStep latest w)
  end.

(** ** AudioManager *)

Module Audio.

Inductive AudioEvent : Type :=
| ConceptCreated | ConceptExpanded | ConceptSelected | ConceptHovered
| NavigationMove | ConnectionFormed | SearchResult | Error | Success.

(** [useSettingsStore.getState().audio] *)
Record AudioSettings : Type := mkAudioSettings {
  enabled : bool;
  masterVolume : Q;
  conceptCreatedVolume : Q;
  conceptExpandedVolume : Q;
  conceptSelectedVolume : Q;
  conceptHoveredVolume : Q;
  navigationVolume : Q
}.

(** An [AudioClip]; [buffer] tells whether the buffer is there. *)
Record AudioClip : Type := mkClip {
  buffer : bool;
  url : String.string;
  volume : Q
}.

(** The state of an [AudioContext]. *)
Inductive ContextState : Type := running | suspended.

(** The fields of the [AudioManager] instance. [masterGain] holds the gain
    value of the master node; [started] lists the sources that were
    started, each with the gain of its own gain node, oldest first. *)
Record AudioManager : Type := mkManager {
  audioContext : option ContextState;
  clips : AudioEvent -> option AudioClip;
  isInitialized : bool;
  masterGain : option Q;
  started : list (AudioEvent * Q)
}.

(** The clips [generateAudioClips] stores. *)
Definition generatedClip (event : AudioEvent) : AudioClip :=
  match event with
  | ConceptCreated => mkClip true String.EmptyString (8 # 10)
  | ConceptExpanded => mkClip true String.EmptyString (6 # 10)
  | ConceptSelected => mkClip true String.EmptyString (5 # 10)
  | ConceptHovered => mkClip true String.EmptyString (3 # 10)
  | NavigationMove => mkClip true String.EmptyString (4 # 10)
  | ConnectionFormed => mkClip true String.EmptyString (6 # 10)
  | SearchResult => mkClip true String.EmptyString (5 # 10)
  | Error => mkClip true String.EmptyString (7 # 10)
  | Success => mkClip true String.EmptyString (8 # 10)
  end.

Definition generateAudioClips (this : AudioManager) : AudioManager :=
  match audioContext this with
  | None => this
  | Some _ =>
      mkManager (audioContext this) (fun event => Some (generatedClip event))
                (isInitialized this) (masterGain this) (started this)
  end.

Definition updateMasterVolume (settings : AudioSettings)
  (this : AudioManager) : AudioManager :=
  match masterGain this with
  | Some _ =>
      mkManager (audioContext this) (clips this) (isInitialized this)
                (Some (masterVolume settings)) (started this)
  | None => this
  end.

Definition setEnabled (settings : AudioSettings) (on : bool)
  (this : AudioManager) : AudioManager :=
  match masterGain this with
  | Some _ =>
      mkManager (audioContext this) (clips this) (isInitialized this)
                (Some (if on then masterVolume settings else 0))
                (started this)
  | None => this
  end.

(** The [switch] of [playSound]. *)
Definition eventVolume (settings : AudioSettings) (event : AudioEvent)
  (volume : Q) : Q :=
  match event with
  | ConceptCreated => volume * conceptCreatedVolume settings
  | ConceptExpanded => volume * conceptExpandedVolume settings
  | ConceptSelected => volume * conceptSelectedVolume settings
  | ConceptHovered => volume * conceptHoveredVolume settings
  | NavigationMove => volume * navigationVolume settings
  | _ => volume
  end.

Definition playSound (settings : AudioSettings) (event : AudioEvent)
  (this : AudioManager) : AudioManager :=
  match isInitialized this, audioContext this, masterGain this with
  | true, Some _, Some _ =>
      if negb (enabled settings) then this
      else
        match clips this event with
        | Some clip =>
            if negb (buffer clip) then this
            else
              let volume := volume clip * masterVolume settings in
              let volume := eventVolume settings event volume in
              mkManager (audioContext this) (clips this)
                        (isInitialized this) (masterGain this)
                        (started this ++ [(event, volume)])
        | None => this
        end
  | _, _, _ => this
  end.

Definition playNavigationMove (settings : AudioSettings)
  (this : AudioManager) : AudioManager :=
  playSound settings NavigationMove this.

(** [initialize] when the audio context can be created; [state] is the
    state the browser gives the new context, and a new gain node has the
    gain 1. *)
Definition initialize (settings : AudioSettings) (state : ContextState)
  (this : AudioManager) : AudioManager :=
  let this := mkManager (Some state) (clips this) (isInitialized this)
                        (masterGain this) (started this) in
  let this := mkManager (audioContext this) (clips this)
                        (isInitialized this) (Some 1) (started this) in
  let this := updateMasterVolume settings this in
  let this := generateAudioClips this in
  mkManager (audioContext this) (clips this) true (masterGain this)
            (started this).

(** The manager before [initialize]. *)
Definition fresh : AudioManager :=
  mkManager None (fun _ => None) false None [].

(** What a started source contributes at the destination: its own gain
    times the gain of the master node it is connected to. *)
Definition outputLevel (this : AudioManager) (gain : Q) : Q :=
  match masterGain this with
  | Some g => gain * g
  | None => 0
  end.

Definition defaultAudioSettings : AudioSettings :=
  mkAudioSettings true (7 # 10) (8 # 10) (6 # 10) (5 # 10) (3 # 10) (4 # 10).

End Audio.

(** ** Statements about sequences of calls *)

(** What stays as it was at start-up. *)
Definition constants (w w' : World) : Prop :=
  defaultCamera (nav w') = defaultCamera (nav w) /\
  animationDuration (nav w') = animationDuration (nav w) /\
  settings w' = settings w.

(** The calls that belong to the store: all but [handleMotion] and the
    frame loop. *)
Definition storeCall (a : Action) : bool :=
  match a with
  | HandleMotion _ | ProcessMotion => false
  | _ => true
  end.


(** ** Statements about the controller *)

(** The bounds of the buffers, and [lastMotion] as the newest sample. *)
Definition buffersBounded (c : Controller) : Prop :=
  (len (motionBuffer c) <= 10)%Z /\
  (forall axis, (len (smoothingBuffer c axis) <= 5)%Z) /\
  (forall axis, length (smoothingBuffer c axis)
                = length (smoothingBuffer c ax_x)) /\
  match lastMotion c with
  | Some m => motionBuffer c <> [] /\ last (motionBuffer c) m = m
  | None => motionBuffer c = []
  end.




(** The settings with the inversion flag of one axis set. *)
Definition withInvert (st : SpaceMouseSettings) (a : Axis) (b : bool)
  : SpaceMouseSettings :=
  mkSettings (sensitivity st)
    (match a with ax_x => b | _ => invertX st end)
    (match a with ax_y => b | _ => invertY st end)
    (match a with ax_z => b | _ => invertZ st end)
    (match a with ax_rx => b | _ => invertRX st end)
    (match a with ax_ry => b | _ => invertRY st end)
    (match a with ax_rz => b | _ => invertRZ st end)
    (deadZone st) (smoothing st).


(** * Properties *)

(** ** Facts about numbers *)

Module NumFacts.

Lemma ltb_lt a b : Num.ltb a b = true <-> a < b.
Proof.
  unfold Num.ltb. rewrite negb_true_iff. split; intro H.
  - apply Qnot_le_lt. intro Hle. apply Qle_bool_iff in Hle. congruence.
  - destruct (Qle_bool b a) eqn:E; [|reflexivity].
    apply Qle_bool_iff in E. exfalso. apply (Qlt_not_le _ _ H E).
Qed.

Lemma ltb_ge a b : Num.ltb a b = false <-> b <= a.
Proof.
  unfold Num.ltb. rewrite negb_false_iff. apply Qle_bool_iff.
Qed.

Lemma sign_pos v : 0 < v -> Num.sign v = 1.
Proof.
  destruct v as [n d]. unfold Qlt, Num.sign. simpl. intro H.
  destruct n; try lia. reflexivity.
Qed.

Lemma sign_neg v : v < 0 -> Num.sign v = -(1).
Proof.
  destruct v as [n d]. unfold Qlt, Num.sign. simpl. intro H.
  destruct n; try lia. reflexivity.
Qed.

Lemma sign_zero v : v == 0 -> Num.sign v = 0.
Proof.
  destruct v as [n d]. unfold Qeq, Num.sign. simpl. intro H.
  destruct n; try lia. reflexivity.
Qed.

(** Every number is negative, zero or positive, and [Math.sign] tells. *)
Lemma sign_cases v :
  (v < 0 /\ Num.sign v = -(1) /\ Qabs v == - v) \/
  (v == 0 /\ Num.sign v = 0 /\ Qabs v == 0) \/
  (0 < v /\ Num.sign v = 1 /\ Qabs v == v).
Proof.
  destruct (Qlt_le_dec v 0) as [Hlt|Hge].
  - left. split; [exact Hlt|]. split; [apply sign_neg; exact Hlt|].
    apply Qabs_neg. apply Qlt_le_weak. exact Hlt.
  - destruct (Qlt_le_dec 0 v) as [Hp|Hn].
    + right; right. split; [exact Hp|]. split; [apply sign_pos; exact Hp|].
      apply Qabs_pos. exact Hge.
    + right; left. assert (Hz : v == 0) by (apply Qle_antisym; assumption).
      split; [exact Hz|]. split; [apply sign_zero; exact Hz|].
      rewrite Hz. reflexivity.
Qed.


End NumFacts.

(** ** Dead zone *)

Section DeadZone.

Variable d : Q.
Hypothesis d_nonneg : 0 <= d.
Hypothesis d_below_one : d < 1.

Lemma deadZone_inside v : Qabs v < d -> applyDeadZoneToValue d v = 0.
Proof.
  intro H. unfold applyDeadZoneToValue.
  apply NumFacts.ltb_lt in H. rewrite H. reflexivity.
Qed.

Lemma deadZone_outside v :
  d <= Qabs v ->
  applyDeadZoneToValue d v = Num.sign v * ((Qabs v - d) / (1 - d)).
Proof.
  intro H. unfold applyDeadZoneToValue.
  apply NumFacts.ltb_ge in H. rewrite H. reflexivity.
Qed.


(** Outside the dead zone the magnitude is the rescaled excess. *)
Lemma deadZone_abs v :
  d <= Qabs v ->
  Qabs (applyDeadZoneToValue d v) == (Qabs v - d) / (1 - d).
Proof.
  intro H. rewrite (deadZone_outside v H).
  assert (Hk : 0 < / (1 - d)) by (apply Qinv_lt_0_compat; lra).
  assert (Hs : 0 <= (Qabs v - d) / (1 - d)).
  { unfold Qdiv. apply Qmult_le_0_compat; lra. }
  rewrite Qabs_Qmult, (Qabs_pos _ Hs).
  destruct (NumFacts.sign_cases v)
    as [(_ & -> & _)|[(_ & -> & Hz)|(_ & -> & _)]].
  - setoid_replace (Qabs (-(1))) with 1 by reflexivity. ring.
  - assert (Hd : d == 0) by (rewrite Hz in H; lra).
    rewrite Hz, Hd. reflexivity.
  - setoid_replace (Qabs 1) with 1 by reflexivity. ring.
Qed.


End DeadZone.

(** ** Input pipeline *)

Lemma processedMotionOf_axis st m a :
  axisValue (processedMotionOf st m) a =
  invertIf (invertOf st a) (applyDeadZoneToValue (deadZone st) (axisValue m a))
  * sensitivity st.
Proof. destruct a; reflexivity. Qed.

(** [handleMotion] never rejects: it always ends, with the processed sample
    as the newest entry of the motion buffer and as [lastMotion]. *)
Lemma handleMotion_pushes m w :
  exists w',
    run (handleMotion m) w = Some w' /\
    lastMotion (controller w') = Some (processedMotionOf (settings w) m) /\
    last (motionBuffer (controller w')) (processedMotionOf (settings w) m)
    = processedMotionOf (settings w) m /\
    motionBuffer (controller w') <> [] /\
    nav w' = withSpaceMouseActive true (nav w).
Proof.
  unfold handleMotion, run, bind, getSettings, getThis, putThis,
    setSpaceMouseActive, set, playNavigationMove, ret.
  set (p := processedMotionOf (settings w) m).
  set (b := push (motionBuffer (controller w)) p).
  assert (Hlast : last b p = p) by (unfold b, push; apply last_last).
  assert (Hshift : last (if (10 <? len b)%Z then shift b else b) p = p
                   /\ (if (10 <? len b)%Z then shift b else b) <> []).
  { destruct (10 <? len b)%Z eqn:E.
    - apply Z.ltb_lt in E. unfold len in E.
      destruct b as [|b0 [|b1 rest]]; simpl in E; try lia.
      split; [exact Hlast | discriminate].
    - split; [exact Hlast|]. unfold b, push.
      destruct (motionBuffer (controller w)); discriminate. }
  destruct Hshift as [H1 H2].
  destruct (hasSignificantMotion p); eexists; (split; [reflexivity|]);
    simpl; auto.
Qed.

(** ** Smoothing *)

Lemma nth_error_skipn_cons {A} (l : list A) i b :
  nth_error l i = Some b -> skipn i l = b :: skipn (S i) l.
Proof.
  revert i. induction l as [|a l IH]; intros [|i] H; simpl in *;
    try discriminate.
  - inversion H. reflexivity.
  - apply IH. exact H.
Qed.

(** The loop is the fold over the part of the buffer from [i] on. *)
Lemma smoothingLoop_fold alpha buffer fuel :
  forall i smoothed,
    (length buffer <= i + fuel)%nat ->
    smoothingLoop alpha buffer fuel i smoothed
    = fold_left (blend alpha) (skipn i buffer) smoothed.
Proof.
  induction fuel as [|fuel IH]; intros i s Hfuel; simpl.
  - rewrite skipn_all2 by lia. reflexivity.
  - destruct (nth_error buffer i) as [b|] eqn:E.
    + rewrite (nth_error_skipn_cons _ _ _ E). simpl.
      apply IH. lia.
    + apply nth_error_None in E. rewrite skipn_all2 by lia. reflexivity.
Qed.

Lemma fold_blend_proper alpha l :
  forall s s', s == s' ->
    fold_left (blend alpha) l s == fold_left (blend alpha) l s'.
Proof.
  induction l as [|b l IH]; intros s s' H; simpl.
  - exact H.
  - apply IH. unfold blend. rewrite H. reflexivity.
Qed.

Lemma last_nonempty_default {A} (l : list A) a d1 d2 :
  last (a :: l) d1 = last (a :: l) d2.
Proof.
  revert a. induction l as [|b l IH]; intro a; [reflexivity|].
  change (last (b :: l) d1 = last (b :: l) d2). apply IH.
Qed.

(** With coefficient zero every blend keeps the newer value only. *)
Lemma fold_blend_zero alpha l :
  alpha == 0 ->
  forall s, fold_left (blend alpha) l s == last (s :: l) s.
Proof.
  intro Ha. induction l as [|b l IH]; intro s.
  - reflexivity.
  - simpl fold_left.
    rewrite (fold_blend_proper alpha l (blend alpha s b) b)
      by (unfold blend; rewrite Ha; ring).
    rewrite IH.
    change (last (s :: b :: l) s) with (last (b :: l) s).
    rewrite (last_nonempty_default l b b s). reflexivity.
Qed.


(** [calculateSmoothedValue] on a non-empty buffer, by cases. *)
Lemma calculateSmoothedValue_cons this axis alpha v0 rest :
  smoothingBuffer this axis = v0 :: rest ->
  calculateSmoothedValue this axis alpha =
  if Qeq_bool alpha 0 then last (v0 :: rest) v0
  else fold_left (blend alpha) rest v0.
Proof.
  intro Hb. unfold calculateSmoothedValue. rewrite Hb.
  destruct (Qeq_bool alpha 0); [reflexivity|].
  rewrite smoothingLoop_fold by (simpl; lia). reflexivity.
Qed.

(** ** The navigation store, call by call *)

Ltac run_store :=
  unfold run, bind, get, set, setTimeout, ret, spread; simpl.

Lemma run_setCameraPosition pos w :
  run (setCameraPosition pos) w =
  Some (mapNav (fun state =>
                  withCamera (mkCamera pos (target (camera state))
                                       (zoom (camera state))
                                       (fov (camera state))) state) w).
Proof. reflexivity. Qed.

Lemma run_setCameraTarget tgt w :
  run (setCameraTarget tgt) w =
  Some (mapNav (fun state =>
                  withCamera (mkCamera (position (camera state)) tgt
                                       (zoom (camera state))
                                       (fov (camera state))) state) w).
Proof. reflexivity. Qed.

Lemma run_resetCamera w :
  run resetCamera w =
  Some (schedule (animationDuration (nav w))
          (mapNav (fun state =>
                     withAnimating true
                       (withCamera (defaultCamera (nav w)) state)) w)).
Proof. reflexivity. Qed.

Lemma run_addToHistory w :
  run addToHistory w =
  Some (mapNav (fun state =>
                  withIndex (len (committed (nav w)) - 1)
                            (withHistory (committed (nav w)) state)) w).
Proof. reflexivity. Qed.

Lemma run_animateToPosition pos tgt w :
  let moved :=
    withAnimating true
      (withCamera (poseAfter (camera (nav w)) (pos, tgt)) (nav w)) in
  run (animateToPosition pos tgt) w =
  Some (schedule (animationDuration (nav w))
          (mapNav (fun _ =>
                     withIndex (len (committed moved) - 1)
                               (withHistory (committed moved) moved)) w)).
Proof. reflexivity. Qed.

Lemma run_navigateBack w :
  run navigateBack w =
  if (0 <? currentHistoryIndex (nav w))%Z then
    match index (history (nav w)) (currentHistoryIndex (nav w) - 1) with
    | Some previousState =>
        Some (schedule (animationDuration (nav w))
                (mapNav (fun state =>
                           withAnimating true
                             (withIndex (currentHistoryIndex (nav w) - 1)
                                        (withCamera previousState state)))
                        w))
    | None => None
    end
  else Some w.
Proof.
  unfold navigateBack. run_store.
  destruct (0 <? currentHistoryIndex (nav w))%Z; [|reflexivity].
  simpl. destruct (index _ _); reflexivity.
Qed.

Lemma run_navigateForward w :
  run navigateForward w =
  if (currentHistoryIndex (nav w) <? len (history (nav w)) - 1)%Z then
    match index (history (nav w)) (currentHistoryIndex (nav w) + 1) with
    | Some nextState =>
        Some (schedule (animationDuration (nav w))
                (mapNav (fun state =>
                           withAnimating true
                             (withIndex (currentHistoryIndex (nav w) + 1)
                                        (withCamera nextState state)))
                        w))
    | None => None
    end
  else Some w.
Proof.
  unfold navigateForward. run_store.
  destruct (currentHistoryIndex (nav w) <? len (history (nav w)) - 1)%Z;
    [|reflexivity].
  simpl. destruct (index _ _); reflexivity.
Qed.

Lemma run_seq (m k : M unit) w :
  run (m ;;; k) w =
  match run m w with
  | Some w' => run k w'
  | None => None
  end.
Proof.
  unfold run, bind. destruct (m w) as [[[] w']|]; reflexivity.
Qed.

Lemma run_seq_nil (m : M unit) w : run (m ;;; ret tt) w = run m w.
Proof.
  unfold run, bind, ret. destruct (m w) as [[[] w']|]; reflexivity.
Qed.

(** ** Arrays *)

Lemma len_nonneg {A} (l : list A) : (0 <= len l)%Z.
Proof. unfold len. lia. Qed.

Lemma len_app {A} (l1 l2 : list A) : len (l1 ++ l2) = (len l1 + len l2)%Z.
Proof. unfold len. rewrite length_app. lia. Qed.

Lemma len_nil_iff {A} (l : list A) : len l = 0%Z <-> l = [].
Proof.
  unfold len. destruct l; simpl; split; intro H; try reflexivity;
    try discriminate; lia.
Qed.

Lemma index_in_range {A} (l : list A) i :
  (0 <= i < len l)%Z -> exists v, index l i = Some v.
Proof.
  intros [H0 H1]. unfold index.
  destruct (i <? 0)%Z eqn:E; [apply Z.ltb_lt in E; lia|].
  destruct (nth_error l (Z.to_nat i)) as [v|] eqn:En; [eauto|].
  apply nth_error_None in En. unfold len in H1. lia.
Qed.

Lemma index_some_in_range {A} (l : list A) i v :
  index l i = Some v -> (0 <= i < len l)%Z.
Proof.
  unfold index. destruct (i <? 0)%Z eqn:E; [discriminate|].
  apply Z.ltb_ge in E. intro H.
  assert (Hn : nth_error l (Z.to_nat i) <> None) by congruence.
  apply nth_error_Some in Hn. unfold len. lia.
Qed.


(** A slice whose end is inside the array is the prefix of that length. *)
Lemma slice0_prefix {A} (l : list A) e :
  (0 <= e <= len l)%Z ->
  slice0 l e = firstn (Z.to_nat e) l /\ len (slice0 l e) = e.
Proof.
  intros [H0 H1]. unfold slice0.
  destruct (e <? 0)%Z eqn:E; [apply Z.ltb_lt in E; lia|].
  split; [reflexivity|]. unfold len in *. rewrite length_firstn. lia.
Qed.

Lemma slice0_len_le {A} (l : list A) e : (len (slice0 l e) <= len l)%Z.
Proof.
  unfold slice0, len. destruct (e <? 0)%Z; rewrite length_firstn; lia.
Qed.

(** ** What [addToHistory] stores *)

Lemma committed_nonempty s : committed s <> [].
Proof.
  unfold committed, push, shift.
  set (p := slice0 (history s) (currentHistoryIndex s + 1)).
  destruct (maxHistorySize <? len (p ++ [camera s]))%Z eqn:E.
  - apply Z.ltb_lt in E. rewrite len_app in E. unfold maxHistorySize in E.
    destruct p as [|a [|b p]]; simpl in *; try discriminate;
      unfold len in E; simpl in E; lia.
  - destruct p; discriminate.
Qed.

Lemma committed_last s c : last (committed s) c = camera s.
Proof.
  unfold committed, push, shift.
  set (p := slice0 (history s) (currentHistoryIndex s + 1)).
  destruct (maxHistorySize <? len (p ++ [camera s]))%Z eqn:E.
  - apply Z.ltb_lt in E. rewrite len_app in E. unfold maxHistorySize in E.
    destruct p as [|a p]; [unfold len in E; simpl in E; lia|].
    simpl tl. apply last_last.
  - apply last_last.
Qed.

Lemma committed_capacity s :
  withinCapacity s -> (len (committed s) <= maxHistorySize)%Z.
Proof.
  unfold withinCapacity, committed, push, shift. intro Hc.
  pose proof (slice0_len_le (history s) (currentHistoryIndex s + 1)) as Hs.
  set (p := slice0 (history s) (currentHistoryIndex s + 1)) in *.
  destruct (maxHistorySize <? len (p ++ [camera s]))%Z eqn:E.
  - rewrite len_app in E. apply Z.ltb_lt in E.
    destruct p as [|a p]; unfold len in *; simpl in *; try lia.
    rewrite length_app. simpl. lia.
  - apply Z.ltb_ge in E. exact E.
Qed.

(** Below the capacity the stored history is the prefix up to the index,
    followed by the snapshot. *)
Lemma committed_prefix s :
  (-1 <= currentHistoryIndex s < len (history s))%Z ->
  (currentHistoryIndex s + 1 < maxHistorySize)%Z ->
  committed s =
  firstn (Z.to_nat (currentHistoryIndex s + 1)) (history s) ++ [camera s]
  /\ len (committed s) = (currentHistoryIndex s + 2)%Z.
Proof.
  intros Hi Hc. unfold committed, push, shift.
  destruct (slice0_prefix (history s) (currentHistoryIndex s + 1))
    as [Hp Hl]; [lia|].
  rewrite Hp in *.
  destruct (maxHistorySize <? _)%Z eqn:E.
  - apply Z.ltb_lt in E. rewrite len_app, Hl in E. unfold len in E.
    simpl in E. lia.
  - split; [reflexivity|]. rewrite len_app, Hl. unfold len. simpl. lia.
Qed.

(** ** The invariant of the history *)

Lemma indexValid_intro s :
  history s <> [] ->
  (0 <= currentHistoryIndex s < len (history s))%Z ->
  indexValid s.
Proof.
  intros Hne Hr. split; [|auto]. split; intro H; [lia | contradiction].
Qed.

Lemma indexValid_range s :
  indexValid s -> (-1 <= currentHistoryIndex s < len (history s))%Z.
Proof.
  intros [Hiff Hne]. destruct (history s) as [|c h] eqn:E.
  - assert (currentHistoryIndex s = (-1)%Z) by (apply Hiff; reflexivity).
    unfold len. simpl. lia.
  - assert (c :: h <> []) by discriminate. specialize (Hne H). lia.
Qed.

Lemma historyInv_same s s' :
  history s' = history s ->
  currentHistoryIndex s' = currentHistoryIndex s ->
  historyInv s -> historyInv s'.
Proof.
  unfold historyInv, indexValid, withinCapacity. intros -> ->. auto.
Qed.

Lemma historyInv_initial : historyInv initialNavigation.
Proof.
  split; [split|]; simpl.
  - split; reflexivity.
  - intro H. contradiction.
  - unfold withinCapacity, len, maxHistorySize. simpl. lia.
Qed.

Lemma historyInv_committed s :
  withinCapacity s ->
  historyInv (withIndex (len (committed s) - 1)
                        (withHistory (committed s) s)).
Proof.
  intro Hc. split.
  - apply indexValid_intro; simpl.
    + apply committed_nonempty.
    + pose proof (committed_nonempty s) as Hne.
      pose proof (len_nonneg (committed s)).
      assert (len (committed s) <> 0%Z) by (rewrite len_nil_iff; exact Hne).
      lia.
  - unfold withinCapacity. simpl. apply committed_capacity. exact Hc.
Qed.

(** The frame loop leaves the history and its index alone. *)
Lemma processMotion_frame w :
  exists w',
    run processMotion w = Some w' /\
    history (nav w') = history (nav w) /\
    currentHistoryIndex (nav w') = currentHistoryIndex (nav w) /\
    zoom (camera (nav w')) = zoom (camera (nav w)) /\
    fov (camera (nav w')) = fov (camera (nav w)).
Proof.
  unfold processMotion, applySmoothingFilter, applyMotionToCamera,
    setCameraPosition, setCameraTarget.
  unfold run, bind, getThis, getSettings, putThis, get, set, ret. simpl.
  destruct (0 <? len (motionBuffer (controller w)))%Z.
  - simpl. destruct (rev (motionBuffer (controller w))); simpl;
      eexists; (split; [reflexivity|]); simpl; auto.
  - eexists. split; [reflexivity|]. auto.
Qed.

(** Every call keeps the invariant, and none of them fails under it. *)
Lemma perform_historyInv a w :
  historyInv (nav w) ->
  exists w', run (perform a) w = Some w' /\ historyInv (nav w').
Proof.
  intros Hinv. pose proof Hinv as [Hidx Hcap].
  pose proof (indexValid_range _ Hidx) as Hr.
  destruct a; simpl perform.
  - rewrite run_addToHistory. eexists. split; [reflexivity|].
    simpl. apply historyInv_committed. exact Hcap.
  - rewrite run_navigateBack.
    destruct (0 <? currentHistoryIndex (nav w))%Z eqn:E; [|eauto].
    apply Z.ltb_lt in E.
    destruct (index_in_range (history (nav w))
                (currentHistoryIndex (nav w) - 1)) as [c Hc]; [lia|].
    rewrite Hc. eexists. split; [reflexivity|]. simpl.
    split; [|exact Hcap].
    apply indexValid_intro; simpl; [|lia].
    intro Hnil. rewrite Hnil in Hr. unfold len in Hr. simpl in Hr. lia.
  - rewrite run_navigateForward.
    destruct (currentHistoryIndex (nav w) <? len (history (nav w)) - 1)%Z
      eqn:E; [|eauto].
    apply Z.ltb_lt in E.
    destruct (index_in_range (history (nav w))
                (currentHistoryIndex (nav w) + 1)) as [c Hc]; [lia|].
    rewrite Hc. eexists. split; [reflexivity|]. simpl.
    split; [|exact Hcap].
    apply indexValid_intro; simpl; [|lia].
    intro Hnil. rewrite Hnil in E. unfold len in E. simpl in E. lia.
  - rewrite run_resetCamera. eexists. split; [reflexivity|].
    revert Hinv. apply historyInv_same; reflexivity.
  - rewrite run_animateToPosition. eexists. split; [reflexivity|].
    simpl nav.
    apply (historyInv_committed
             (withAnimating true
                (withCamera (poseAfter (camera (nav w)) (pos, tgt))
                            (nav w)))).
    exact Hcap.
  - rewrite run_setCameraPosition. eexists. split; [reflexivity|].
    revert Hinv. apply historyInv_same; reflexivity.
  - rewrite run_setCameraTarget. eexists. split; [reflexivity|].
    revert Hinv. apply historyInv_same; reflexivity.
  - eexists. split; [reflexivity|].
    revert Hinv. apply historyInv_same; reflexivity.
  - eexists. split; [reflexivity|].
    revert Hinv. apply historyInv_same; reflexivity.
  - eexists. split; [reflexivity|].
    revert Hinv. apply historyInv_same; reflexivity.
  - destruct cam; (eexists; split; [reflexivity|]);
      revert Hinv; apply historyInv_same; reflexivity.
  - unfold run, timeoutFires. destruct (timeouts w).
    + eexists. split; [reflexivity|]. exact Hinv.
    + eexists. split; [reflexivity|].
      revert Hinv. apply historyInv_same; reflexivity.
  - destruct (handleMotion_pushes motion w) as (w' & Hrun & _ & _ & _ & Hnav).
    exists w'. split; [exact Hrun|]. rewrite Hnav.
    revert Hinv. apply historyInv_same; reflexivity.
  - destruct (processMotion_frame w) as (w' & Hrun & Hh & Hi & _).
    exists w'. split; [exact Hrun|].
    revert Hinv. apply historyInv_same; assumption.
Qed.

Lemma performAll_historyInv l :
  forall w, historyInv (nav w) ->
    exists w', run (performAll l) w = Some w' /\ historyInv (nav w').
Proof.
  induction l as [|a l IH]; intros w Hinv.
  - exists w. split; [reflexivity | exact Hinv].
  - simpl performAll. rewrite run_seq.
    destruct (perform_historyInv a w Hinv) as (w1 & -> & Hinv1).
    apply IH. exact Hinv1.
Qed.

(** ** Committing a run of poses, and walking back *)

(** [animateToPosition] below the capacity: the entries after the index
    go, the resulting pose is appended, the index moves onto it. *)
Lemma animateToPosition_commits pos tgt w :
  (-1 <= currentHistoryIndex (nav w) < len (history (nav w)))%Z ->
  (currentHistoryIndex (nav w) + 1 < maxHistorySize)%Z ->
  exists w',
    run (animateToPosition pos tgt) w = Some w' /\
    camera (nav w') = poseAfter (camera (nav w)) (pos, tgt) /\
    history (nav w') =
      firstn (Z.to_nat (currentHistoryIndex (nav w) + 1)) (history (nav w))
      ++ [poseAfter (camera (nav w)) (pos, tgt)] /\
    currentHistoryIndex (nav w') = (currentHistoryIndex (nav w) + 1)%Z /\
    defaultCamera (nav w') = defaultCamera (nav w).
Proof.
  intros Hi Hc. rewrite run_animateToPosition. eexists.
  split; [reflexivity|]. simpl nav.
  set (moved := withAnimating true
                  (withCamera (poseAfter (camera (nav w)) (pos, tgt))
                              (nav w))).
  destruct (committed_prefix moved) as [Hp Hl]; [exact Hi | exact Hc |].
  simpl. rewrite Hl, Hp. simpl.
  split; [reflexivity|]. split; [reflexivity|]. split; [lia | reflexivity].
Qed.

Lemma animateToPosition_at_tail pos tgt w :
  currentHistoryIndex (nav w) = (len (history (nav w)) - 1)%Z ->
  (len (history (nav w)) < maxHistorySize)%Z ->
  exists w',
    run (animateToPosition pos tgt) w = Some w' /\
    camera (nav w') = poseAfter (camera (nav w)) (pos, tgt) /\
    history (nav w') =
      history (nav w) ++ [poseAfter (camera (nav w)) (pos, tgt)] /\
    currentHistoryIndex (nav w') = (len (history (nav w')) - 1)%Z /\
    defaultCamera (nav w') = defaultCamera (nav w).
Proof.
  intros Hi Hc. pose proof (len_nonneg (history (nav w))) as Hn.
  destruct (animateToPosition_commits pos tgt w)
    as (w' & Hrun & Hcam & Hh & Hi' & Hd); [lia | lia |].
  exists w'. split; [exact Hrun|]. split; [exact Hcam|].
  rewrite Hi in Hh.
  replace (Z.to_nat (len (history (nav w)) - 1 + 1))
    with (length (history (nav w))) in Hh by (unfold len; lia).
  rewrite firstn_all in Hh.
  split; [exact Hh|]. split; [|exact Hd].
  rewrite Hi', Hh, len_app, Hi. unfold len at 3. simpl. lia.
Qed.

(** Commit A, commit B, back, commit C. *)
Lemma commit_back_commit st pA tA pB tB pC tC :
  exists w',
    run (performAll [AnimateToPosition pA (Some tA);
                     AnimateToPosition pB (Some tB);
                     NavigateBack;
                     AnimateToPosition pC (Some tC)]) (startWorld st)
      = Some w' /\
    history (nav w') = [mkCamera pA tA 1 75; mkCamera pC tC 1 75] /\
    currentHistoryIndex (nav w') = 1%Z /\
    camera (nav w') = mkCamera pC tC 1 75.
Proof.
  cbn [performAll perform]. rewrite run_seq.
  destruct (animateToPosition_commits pA (Some tA) (startWorld st))
    as (w1 & -> & Hc1 & Hh1 & Hi1 & _).
  { split; [simpl; lia | reflexivity]. }
  { reflexivity. }
  simpl in Hc1, Hh1, Hi1. rewrite run_seq.
  destruct (animateToPosition_commits pB (Some tB) w1)
    as (w2 & -> & Hc2 & Hh2 & Hi2 & _).
  { rewrite Hi1, Hh1. split; [lia | reflexivity]. }
  { rewrite Hi1. reflexivity. }
  rewrite Hc1, Hh1, Hi1 in *. simpl in Hc2, Hh2, Hi2.
  rewrite run_seq, run_navigateBack, Hi2, Hh2.
  cbn [Z.ltb Z.compare Z.sub Z.add Z.opp Z.pos_sub index nth_error Z.to_nat].
  match goal with
  | |- context [run (animateToPosition pC (Some tC) ;;; ret tt) ?w] =>
      set (w3 := w)
  end.
  rewrite run_seq_nil.
  destruct (animateToPosition_commits pC (Some tC) w3)
    as (w4 & -> & Hc4 & Hh4 & Hi4 & _).
  { simpl. rewrite Hh2. split; [lia | reflexivity]. }
  { reflexivity. }
  simpl in Hc4, Hh4, Hi4. rewrite Hh2 in Hh4. simpl in Hh4.
  exists w4. split; [reflexivity|].
  split; [exact Hh4|]. split; [exact Hi4 | exact Hc4].
Qed.

Lemma animateCalls_from_tail calls :
  forall w,
    currentHistoryIndex (nav w) = (len (history (nav w)) - 1)%Z ->
    (len (history (nav w)) + Z.of_nat (length calls) <= maxHistorySize)%Z ->
    exists w',
      run (performAll (animateCalls calls)) w = Some w' /\
      history (nav w') =
        history (nav w) ++ posesFrom (camera (nav w)) calls /\
      currentHistoryIndex (nav w') = (len (history (nav w')) - 1)%Z /\
      camera (nav w') =
        last (posesFrom (camera (nav w)) calls) (camera (nav w)) /\
      defaultCamera (nav w') = defaultCamera (nav w).
Proof.
  induction calls as [|[pos tgt] calls IH]; intros w Hi Hc.
  - exists w. simpl. rewrite app_nil_r. auto.
  - simpl animateCalls. simpl performAll. rewrite run_seq. simpl perform.
    simpl length in Hc.
    destruct (animateToPosition_at_tail pos tgt w Hi)
      as (w1 & -> & Hcam & Hh & Hi1 & Hd1); [lia|].
    destruct (IH w1 Hi1) as (w' & Hrun & Hh' & Hi' & Hcam' & Hd').
    { rewrite Hh, len_app. unfold len at 2. simpl. lia. }
    exists w'. split; [exact Hrun|].
    split; [rewrite Hh', Hh, Hcam, <- app_assoc; reflexivity|].
    split; [exact Hi'|].
    split; [|congruence].
    rewrite Hcam', Hcam. simpl posesFrom.
    destruct (posesFrom (poseAfter (camera (nav w)) (pos, tgt)) calls)
      as [|p ps] eqn:E; [reflexivity|].
    change (last (p :: ps) (poseAfter (camera (nav w)) (pos, tgt))
            = last (p :: ps) (camera (nav w))).
    apply last_nonempty_default.
Qed.

Lemma length_map_posesFrom calls :
  forall c, length (posesFrom c calls) = length calls.
Proof.
  induction calls as [|call calls IH]; intro c; simpl;
    [reflexivity | rewrite IH; reflexivity].
Qed.

(** The newest entry of a non-empty array is the one at [length - 1]. *)
Lemma index_last {A} (l : list A) (a d : A) :
  index (a :: l) (len (a :: l) - 1) = Some (last (a :: l) d).
Proof.
  unfold index, len.
  destruct (Z.of_nat (length (a :: l)) - 1 <? 0)%Z eqn:E;
    [apply Z.ltb_lt in E; cbn [length] in E; lia|].
  replace (Z.to_nat (Z.of_nat (length (a :: l)) - 1)) with (length l)
    by (cbn [length]; lia).
  clear E. revert a. induction l as [|b l IH]; intro a; [reflexivity|].
  change (nth_error (b :: l) (length l) = Some (last (b :: l) d)).
  apply IH.
Qed.

(** Walking back [n] times from a state whose pose is the snapshot under
    the index ends on the snapshot [n] places earlier, or on the first. *)
Lemma navigateBack_times n :
  forall w,
    (0 <= currentHistoryIndex (nav w))%Z ->
    index (history (nav w)) (currentHistoryIndex (nav w))
      = Some (camera (nav w)) ->
    exists w',
      run (times n navigateBack) w = Some w' /\
      history (nav w') = history (nav w) /\
      currentHistoryIndex (nav w') =
        Z.max 0 (currentHistoryIndex (nav w) - Z.of_nat n) /\
      index (history (nav w')) (currentHistoryIndex (nav w'))
        = Some (camera (nav w')).
Proof.
  induction n as [|n IH]; intros w H0 Hcam.
  - exists w. simpl. split; [reflexivity|]. split; [reflexivity|].
    split; [lia | exact Hcam].
  - simpl times. rewrite run_seq, run_navigateBack.
    destruct (0 <? currentHistoryIndex (nav w))%Z eqn:E.
    + apply Z.ltb_lt in E.
      pose proof (index_some_in_range _ _ _ Hcam) as Hlen.
      destruct (index_in_range (history (nav w))
                  (currentHistoryIndex (nav w) - 1)) as [c Hc]; [lia|].
      rewrite Hc.
      edestruct IH as (w' & Hrun & Hh & Hi & Hcam');
        [| | exists w'; split; [exact Hrun|]].
      * simpl. lia.
      * simpl. exact Hc.
      * simpl in Hh, Hi.
        split; [exact Hh|]. split; [lia | exact Hcam'].
    + apply Z.ltb_ge in E.
      destruct (IH w H0 Hcam) as (w' & Hrun & Hh & Hi & Hcam').
      exists w'. split; [exact Hrun|]. split; [exact Hh|].
      split; [lia | exact Hcam'].
Qed.


(** * The claims *)



(** C2. On a non-empty smoothing window [v0, ..., vn] (oldest first)
    [calculateSmoothedValue] returns the left fold, from [v0], of
    [smoothed = alpha * smoothed + (1 - alpha) * next] over the later values
    in order; with [alpha = 0] it returns the newest value [vn] itself.
    This holds for every coefficient, so for every one in [0,1]. *)
Theorem C2_smoothing_is_chronological_fold
  (this : Controller) (axis : Axis) (alpha v0 : Q) (rest : list Q)
  (Hbuf : smoothingBuffer this axis = v0 :: rest) :
  calculateSmoothedValue this axis alpha == blendWindow alpha (v0 :: rest) /\
  blendWindow alpha (v0 :: rest) = fold_left (blend alpha) rest v0 /\
  (~ alpha == 0 ->
   calculateSmoothedValue this axis alpha = fold_left (blend alpha) rest v0) /\
  (alpha == 0 ->
   calculateSmoothedValue this axis alpha = last (v0 :: rest) v0).
Proof.
  rewrite (calculateSmoothedValue_cons this axis alpha v0 rest Hbuf).
  simpl blendWindow.
  destruct (Qeq_bool alpha 0) eqn:E.
  - apply Qeq_bool_iff in E.
    split; [symmetry; apply fold_blend_zero; exact E|].
    split; [reflexivity|]. split; [intro H; contradiction|reflexivity].
  - apply Qeq_bool_neq in E.
    split; [reflexivity|]. split; [reflexivity|].
    split; [reflexivity | intro H; contradiction].
Qed.

Lemma C2_smoothing_is_chronological_fold_witness :
  let this := mkController [] None (fun _ => [1; 2 # 1; 4 # 1]) in
  calculateSmoothedValue this ax_x (1 # 2) == 11 # 4 /\
  calculateSmoothedValue this ax_x 0 = 4 # 1.
Proof.
  intro this.
  destruct (C2_smoothing_is_chronological_fold this ax_x (1 # 2) 1
              [2 # 1; 4 # 1] eq_refl) as (H1 & _ & _ & _).
  destruct (C2_smoothing_is_chronological_fold this ax_x 0 1
              [2 # 1; 4 # 1] eq_refl) as (_ & _ & _ & H4).
  split.
  - rewrite H1. reflexivity.
  - rewrite H4; reflexivity.
Defined.



(** C3, as stated, fails: [resetCamera] takes no snapshot. At start-up the
    history is empty and stays empty through a reset. *)
Lemma C3_reset_takes_no_snapshot : ~ everyDiscreteCallSnapshots.
Proof.
  intro H.
  destruct (H (startWorld defaultSettings)) as [(w' & Hrun & Hlen) _].
  rewrite run_resetCamera in Hrun. inversion Hrun; subst w'.
  simpl in Hlen. discriminate.
Qed.

(** C3, amended. Of the discrete navigation calls only [animateToPosition]
    takes a snapshot: it always ends with the resulting pose as the newest
    history entry and the index on it, and the history grows by exactly that
    one entry when the index was on the newest entry and the history below
    its capacity. [resetCamera], [setCameraPosition], [setCameraTarget] and
    the frame loop [processMotion] leave the history and the index as they
    are. *)
Theorem C3_snapshots_on_animate_only (w : World) :
  (forall pos tgt, exists w',
     run (animateToPosition pos tgt) w = Some w' /\
     camera (nav w') = poseAfter (camera (nav w)) (pos, tgt) /\
     history (nav w') <> [] /\
     last (history (nav w')) (camera (nav w)) = camera (nav w') /\
     currentHistoryIndex (nav w') = (len (history (nav w')) - 1)%Z /\
     (currentHistoryIndex (nav w) = (len (history (nav w)) - 1)%Z ->
      (len (history (nav w)) < maxHistorySize)%Z ->
      history (nav w') = history (nav w) ++ [camera (nav w')])) /\
  (exists w',
     run resetCamera w = Some w' /\
     camera (nav w') = defaultCamera (nav w) /\
     history (nav w') = history (nav w) /\
     currentHistoryIndex (nav w') = currentHistoryIndex (nav w)) /\
  (forall pos, exists w',
     run (setCameraPosition pos) w = Some w' /\
     history (nav w') = history (nav w) /\
     currentHistoryIndex (nav w') = currentHistoryIndex (nav w)) /\
  (forall tgt, exists w',
     run (setCameraTarget tgt) w = Some w' /\
     history (nav w') = history (nav w) /\
     currentHistoryIndex (nav w') = currentHistoryIndex (nav w)) /\
  (exists w',
     run processMotion w = Some w' /\
     history (nav w') = history (nav w) /\
     currentHistoryIndex (nav w') = currentHistoryIndex (nav w)).
Proof.
  split; [|split; [|split; [|split]]].
  - intros pos tgt. rewrite run_animateToPosition. eexists.
    split; [reflexivity|]. simpl nav.
    set (moved := withAnimating true
                    (withCamera (poseAfter (camera (nav w)) (pos, tgt))
                                (nav w))).
    simpl.
    split; [reflexivity|].
    split; [apply committed_nonempty|].
    split; [apply committed_last|].
    split; [reflexivity|].
    intros Hi Hc. pose proof (len_nonneg (history (nav w))) as Hn.
    destruct (committed_prefix moved) as [Hp _];
      [simpl; lia | simpl; lia |].
    rewrite Hp. simpl. rewrite Hi.
    replace (Z.to_nat (len (history (nav w)) - 1 + 1))
      with (length (history (nav w))) by (unfold len; lia).
    rewrite firstn_all. reflexivity.
  - rewrite run_resetCamera. eexists. split; [reflexivity|]. simpl. auto.
  - intro pos. rewrite run_setCameraPosition. eexists.
    split; [reflexivity|]. simpl. auto.
  - intro tgt. rewrite run_setCameraTarget. eexists.
    split; [reflexivity|]. simpl. auto.
  - destruct (processMotion_frame w) as (w' & Hrun & Hh & Hi & _).
    exists w'. auto.
Qed.

Lemma C3_snapshots_on_animate_only_witness :
  exists w',
    run (animateToPosition (1, 2 # 1, 3 # 1) None) (startWorld defaultSettings)
      = Some w' /\
    history (nav w') = [mkCamera (1, 2 # 1, 3 # 1) (0, 0, 0) 1 75].
Proof.
  destruct (C3_snapshots_on_animate_only (startWorld defaultSettings))
    as [Hanim _].
  destruct (Hanim (1, 2 # 1, 3 # 1) None)
    as (w' & Hrun & Hcam & _ & _ & _ & Hgrow).
  exists w'. split; [exact Hrun|].
  rewrite (Hgrow eq_refl eq_refl), Hcam. reflexivity.
Defined.

(** C4. In a history state whose index is not on the newest entry (index
    between -1 and length - 2, length within the capacity of 50),
    [addToHistory] drops every entry after the index, appends the snapshot
    of the camera and leaves the index on it. Commit A, commit B, back,
    commit C from start-up gives the history [A, C] with the index on C. *)
Theorem C4_commit_truncates_redo (w : World)
  (Hlo : (-1 <= currentHistoryIndex (nav w))%Z)
  (Hhi : (currentHistoryIndex (nav w) < len (history (nav w)) - 1)%Z)
  (Hcap : (len (history (nav w)) <= maxHistorySize)%Z) :
  (exists w',
     run addToHistory w = Some w' /\
     history (nav w') =
       firstn (Z.to_nat (currentHistoryIndex (nav w) + 1)) (history (nav w))
       ++ [camera (nav w)] /\
     currentHistoryIndex (nav w') = (len (history (nav w')) - 1)%Z /\
     currentHistoryIndex (nav w') = (currentHistoryIndex (nav w) + 1)%Z) /\
  (forall st pA tA pB tB pC tC,
     let A := mkCamera pA tA 1 75 in
     let C := mkCamera pC tC 1 75 in
     exists w',
       run (performAll [AnimateToPosition pA (Some tA);
                        AnimateToPosition pB (Some tB);
                        NavigateBack;
                        AnimateToPosition pC (Some tC)]) (startWorld st)
         = Some w' /\
       history (nav w') = [A; C] /\
       currentHistoryIndex (nav w') = 1%Z /\
       camera (nav w') = C).
Proof.
  split.
  - rewrite run_addToHistory. eexists. split; [reflexivity|]. simpl.
    destruct (committed_prefix (nav w)) as [Hp Hl];
      [lia | unfold maxHistorySize in *; lia |].
    rewrite Hp. split; [reflexivity|]. rewrite <- Hp, Hl. lia.
  - intros. apply commit_back_commit.
Qed.

Lemma C4_commit_truncates_redo_witness :
  let A := mkCamera (1, 0, 0) (0, 0, 0) 1 75 in
  let B := mkCamera (2 # 1, 0, 0) (0, 0, 0) 1 75 in
  let C := mkCamera (3 # 1, 0, 0) (0, 0, 0) 1 75 in
  let w := mapNav (fun s => withCamera C (withIndex 0 (withHistory [A; B] s)))
                  (startWorld defaultSettings) in
  exists w',
    run addToHistory w = Some w' /\
    history (nav w') = [A; C] /\
    currentHistoryIndex (nav w') = 1%Z.
Proof.
  intros A B C w.
  assert (Hlo : (-1 <= currentHistoryIndex (nav w))%Z)
    by (vm_compute; discriminate).
  assert (Hhi : (currentHistoryIndex (nav w) < len (history (nav w)) - 1)%Z)
    by reflexivity.
  assert (Hcap : (len (history (nav w)) <= maxHistorySize)%Z)
    by (vm_compute; discriminate).
  destruct (C4_commit_truncates_redo w Hlo Hhi Hcap)
    as [(w' & Hrun & Hh & _ & Hi) _].
  exists w'. split; [exact Hrun|]. split; [exact Hh | exact Hi].
Defined.

(** C5, as stated, fails: the pose at start-up is never put into the
    history, so walking back cannot reach it. After one
    [animateToPosition] to (1, 0, 0) the history is the single snapshot of
    that pose, and [navigateBack] leaves the camera on it. *)
Lemma C5_back_does_not_reach_initial_pose : ~ backReturnsToInitialPose.
Proof.
  intro H.
  destruct (H defaultSettings [((1, 0, 0), None)])
    as (w1 & w2 & w3 & H1 & H2 & Hcam & _).
  - simpl. lia.
  - simpl animateCalls in H1. simpl length in H2.
    vm_compute in H1. inversion H1; subst w1. clear H1.
    vm_compute in H2. inversion H2; subst w2. clear H2.
    vm_compute in Hcam. discriminate.
Qed.

(** C5, amended. [navigateBack] with the index at the start (0, or -1 for an
    empty history) and [navigateForward] with the index on the newest entry
    leave the whole state as it is. After N [animateToPosition] calls from
    start-up, 1 <= N <= 50, N calls of [navigateBack] leave the camera on
    the pose of the first of these calls, with the index 0, and one more
    call leaves the whole state as it is. *)
Theorem C5_history_boundaries
  (st : SpaceMouseSettings) (call : Vec3 * option Vec3)
  (calls : list (Vec3 * option Vec3))
  (Hn : (length (call :: calls) <= 50)%nat) :
  (forall w, (currentHistoryIndex (nav w) <= 0)%Z ->
     run navigateBack w = Some w) /\
  (forall w, (len (history (nav w)) - 1 <= currentHistoryIndex (nav w))%Z ->
     run navigateForward w = Some w) /\
  (exists w1 w2,
     run (performAll (animateCalls (call :: calls))) (startWorld st)
       = Some w1 /\
     run (times (length (call :: calls)) navigateBack) w1 = Some w2 /\
     camera (nav w2) = poseAfter defaultCameraState call /\
     currentHistoryIndex (nav w2) = 0%Z /\
     history (nav w2) = posesFrom defaultCameraState (call :: calls) /\
     run navigateBack w2 = Some w2).
Proof.
  assert (Hback : forall w, (currentHistoryIndex (nav w) <= 0)%Z ->
            run navigateBack w = Some w).
  { intros w Hw. rewrite run_navigateBack.
    destruct (0 <? currentHistoryIndex (nav w))%Z eqn:E; [|reflexivity].
    apply Z.ltb_lt in E. lia. }
  split; [exact Hback|]. split.
  - intros w Hw. rewrite run_navigateForward.
    destruct (currentHistoryIndex (nav w) <? len (history (nav w)) - 1)%Z
      eqn:E; [|reflexivity].
    apply Z.ltb_lt in E. lia.
  - destruct (animateCalls_from_tail (call :: calls) (startWorld st))
      as (w1 & Hrun1 & Hh1 & Hi1 & Hcam1 & _).
    { reflexivity. }
    { unfold maxHistorySize, len. simpl history. simpl length at 1.
      simpl in Hn. simpl length. lia. }
    simpl history in Hh1. simpl camera in Hh1, Hcam1. simpl app in Hh1.
    assert (Hlen1 : len (history (nav w1))
                    = Z.of_nat (length (call :: calls))).
    { rewrite Hh1. unfold len. simpl. rewrite length_map_posesFrom.
      reflexivity. }
    destruct (navigateBack_times (length (call :: calls)) w1)
      as (w2 & Hrun2 & Hh2 & Hi2 & Hcam2).
    { rewrite Hi1, Hlen1. cbn [length]. lia. }
    { rewrite Hcam1, Hi1, Hh1.
      apply index_last. }
    exists w1, w2. split; [exact Hrun1|]. split; [exact Hrun2|].
    assert (Hzero : currentHistoryIndex (nav w2) = 0%Z).
    { rewrite Hi2, Hi1, Hlen1. lia. }
    rewrite Hzero, Hh2, Hh1 in Hcam2. simpl in Hcam2.
    inversion Hcam2 as [Hc].
    split; [reflexivity|]. split; [exact Hzero|].
    split; [rewrite Hh2; exact Hh1|].
    apply Hback. lia.
Qed.

Lemma C5_history_boundaries_witness :
  exists w1 w2,
    run (performAll (animateCalls [((1, 0, 0), None);
                                   ((2 # 1, 0, 0), Some (1, 1, 1))]))
        (startWorld defaultSettings) = Some w1 /\
    run (times 2 navigateBack) w1 = Some w2 /\
    camera (nav w2) = mkCamera (1, 0, 0) (0, 0, 0) 1 75 /\
    currentHistoryIndex (nav w2) = 0%Z /\
    run navigateBack w2 = Some w2.
Proof.
  assert (Hn : le (length [((1, 0, 0), @None Vec3);
                           ((2 # 1, 0, 0), Some (1, 1, 1))]) 50)
    by (simpl; lia).
  destruct (C5_history_boundaries defaultSettings
              ((1, 0, 0), None) [((2 # 1, 0, 0), Some (1, 1, 1))] Hn)
    as (_ & _ & w1 & w2 & H1 & H2 & Hcam & Hi & _ & Hstay).
  exists w1, w2. repeat split; assumption.
Defined.

(** C6. In every state reached from start-up by any sequence of store and
    controller calls ([addToHistory], [navigateBack], [navigateForward],
    [resetCamera], [animateToPosition], [setCameraPosition],
    [setCameraTarget], [setZoom], and also the flag setters,
    [updateFromThreeCamera], a firing timeout, [handleMotion] and the frame
    loop) the sequence runs to its end,
    the index is -1 exactly when the history is empty, and otherwise
    0 <= index < length. The history never exceeds its capacity. *)
Theorem C6_index_points_into_history
  (st : SpaceMouseSettings) (calls : list Action) :
  exists w,
    run (performAll calls) (startWorld st) = Some w /\
    (currentHistoryIndex (nav w) = (-1)%Z <-> history (nav w) = []) /\
    (history (nav w) <> [] ->
     (0 <= currentHistoryIndex (nav w) < len (history (nav w)))%Z) /\
    (len (history (nav w)) <= maxHistorySize)%Z.
Proof.
  destruct (performAll_historyInv calls (startWorld st) historyInv_initial)
    as (w & Hrun & [[Hiff Hrange] Hcap]).
  exists w. auto.
Qed.

Lemma C6_index_points_into_history_witness :
  exists w,
    run (performAll [AnimateToPosition (1, 0, 0) None; NavigateBack;
                     ResetCamera; AddToHistory; NavigateBack;
                     NavigateForward; SetZoom (3 # 1)])
        (startWorld defaultSettings) = Some w /\
    (0 <= currentHistoryIndex (nav w) < len (history (nav w)))%Z.
Proof.
  destruct (C6_index_points_into_history defaultSettings
              [AnimateToPosition (1, 0, 0) None; NavigateBack;
               ResetCamera; AddToHistory; NavigateBack;
               NavigateForward; SetZoom (3 # 1)])
    as (w & Hrun & _ & Hrange & _).
  exists w. split; [exact Hrun|]. apply Hrange.
  vm_compute in Hrun. inversion Hrun. discriminate.
Defined.

(** C7, as stated, fails: nothing in the pipeline clamps. With the default
    settings (dead zone 0.1, sensitivity 1, no inversion) a raw sample whose
    x axis is 2 is pushed with the x axis 19/9. *)
Lemma C7_out_of_range_sample_not_clamped : ~ pushedSamplesInRange.
Proof.
  intro H.
  destruct (H (startWorld defaultSettings)
              (SpaceMouseMotion.mk (2 # 1) 0 0 0 0 0 0) ax_x)
    as (w' & Hrun & Hle).
  - vm_compute. discriminate.
  - reflexivity.
  - reflexivity.
  - vm_compute in Hrun. inversion Hrun; subst w'. clear Hrun.
    vm_compute in Hle. apply Hle. reflexivity.
Qed.

(** Inside the raw range the shaped magnitude is at most 1. *)
Lemma deadZone_abs_le_one d v :
  0 <= d -> d < 1 -> Qabs v <= 1 -> Qabs (applyDeadZoneToValue d v) <= 1.
Proof.
  intros Hd0 Hd1 Hv. destruct (Qlt_le_dec (Qabs v) d) as [Hin|Hout].
  - rewrite (deadZone_inside d v Hin). vm_compute. discriminate.
  - rewrite (deadZone_abs d Hd0 Hd1 v Hout).
    apply Qle_shift_div_r; lra.
Qed.

(** Outside the raw range it is more than 1. *)
Lemma deadZone_abs_gt_one d v :
  0 <= d -> d < 1 -> 1 < Qabs v -> 1 < Qabs (applyDeadZoneToValue d v).
Proof.
  intros Hd0 Hd1 Hv.
  rewrite (deadZone_abs d Hd0 Hd1 v) by lra.
  apply Qlt_shift_div_l; lra.
Qed.

Lemma invertIf_abs b v : Qabs (invertIf b v) == Qabs v.
Proof.
  destruct b; unfold invertIf; [|reflexivity].
  setoid_replace (v * -(1)) with (- v) by ring. apply Qabs_opp.
Qed.

(** C7, amended. [handleMotion] rejects no sample and clamps none: for a
    dead zone in [0,1) and a positive sensitivity s, every raw sample is
    processed and pushed as the newest entry of the motion buffer; an axis
    of the pushed sample has magnitude at most s when the raw axis has
    magnitude at most 1, and magnitude above s when the raw axis has
    magnitude above 1. *)
Theorem C7_samples_pushed_unclamped
  (w : World) (motion : SpaceMouseMotion.t)
  (Hd0 : 0 <= deadZone (settings w)) (Hd1 : deadZone (settings w) < 1)
  (Hs : 0 < sensitivity (settings w)) :
  exists w' processed,
    run (handleMotion motion) w = Some w' /\
    last (motionBuffer (controller w')) motion = processed /\
    lastMotion (controller w') = Some processed /\
    forall axis,
      (Qabs (axisValue motion axis) <= 1 ->
       Qabs (axisValue processed axis) <= sensitivity (settings w)) /\
      (1 < Qabs (axisValue motion axis) ->
       sensitivity (settings w) < Qabs (axisValue processed axis)).
Proof.
  destruct (handleMotion_pushes motion w)
    as (w' & Hrun & Hlast & Hbuf & Hne & _).
  exists w', (processedMotionOf (settings w) motion).
  split; [exact Hrun|]. split.
  { destruct (motionBuffer (controller w')) as [|b bs]; [contradiction|].
    rewrite (last_nonempty_default bs b motion
               (processedMotionOf (settings w) motion)).
    exact Hbuf. }
  split; [exact Hlast|].
  intro axis. rewrite processedMotionOf_axis.
  rewrite Qabs_Qmult, invertIf_abs.
  rewrite (Qabs_pos (sensitivity (settings w))) by lra.
  set (s := sensitivity (settings w)) in *.
  set (a := Qabs (applyDeadZoneToValue (deadZone (settings w))
                    (axisValue motion axis))).
  split; intro Hv.
  - assert (Ha : a <= 1) by (apply deadZone_abs_le_one; assumption).
    assert (0 <= (1 - a) * s) by (apply Qmult_le_0_compat; lra).
    lra.
  - assert (Ha : 1 < a) by (apply deadZone_abs_gt_one; assumption).
    assert (0 < (a - 1) * s) by (apply Qmult_lt_0_compat; lra).
    lra.
Qed.

Lemma C7_samples_pushed_unclamped_witness :
  exists w' processed,
    run (handleMotion (SpaceMouseMotion.mk (2 # 1) (1 # 2) 0 0 0 0 0))
        (startWorld defaultSettings) = Some w' /\
    lastMotion (controller w') = Some processed /\
    1 < Qabs (axisValue processed ax_x) /\
    Qabs (axisValue processed ax_y) <= 1.
Proof.
  assert (Hd0 : 0 <= deadZone (settings (startWorld defaultSettings)))
    by (vm_compute; discriminate).
  assert (Hd1 : deadZone (settings (startWorld defaultSettings)) < 1)
    by reflexivity.
  assert (Hs : 0 < sensitivity (settings (startWorld defaultSettings)))
    by reflexivity.
  destruct (C7_samples_pushed_unclamped (startWorld defaultSettings)
              (SpaceMouseMotion.mk (2 # 1) (1 # 2) 0 0 0 0 0) Hd0 Hd1 Hs)
    as (w' & processed & Hrun & _ & Hlast & Haxes).
  exists w', processed. split; [exact Hrun|]. split; [exact Hlast|].
  split.
  - apply (Haxes ax_x). reflexivity.
  - apply (Haxes ax_y). vm_compute. discriminate.
Defined.

(** C8. For every smoothed sample and every camera pose the integration step
    [applyMotionToCamera] adds to each position component the matching
    translation axis times the translation speed (5) times the nominal frame
    duration (0.016), adds to each target component the matching rotation
    axis times the rotation speed (1) times the same duration, and leaves
    zoom and field of view, and everything of the store but the camera, as
    they are. *)
Theorem C8_frame_integration
  (w : World) (motion : SpaceMouseMotion.t) :
  exists w',
    run (applyMotionToCamera motion) w = Some w' /\
    position (camera (nav w')) =
      (at0 (position (camera (nav w)))
         + SpaceMouseMotion.x motion * translationSpeed * deltaTime,
       at1 (position (camera (nav w)))
         + SpaceMouseMotion.y motion * translationSpeed * deltaTime,
       at2 (position (camera (nav w)))
         + SpaceMouseMotion.z motion * translationSpeed * deltaTime) /\
    target (camera (nav w')) =
      (at0 (target (camera (nav w)))
         + SpaceMouseMotion.rx motion * rotationSpeed * deltaTime,
       at1 (target (camera (nav w)))
         + SpaceMouseMotion.ry motion * rotationSpeed * deltaTime,
       at2 (target (camera (nav w)))
         + SpaceMouseMotion.rz motion * rotationSpeed * deltaTime) /\
    zoom (camera (nav w')) = zoom (camera (nav w)) /\
    fov (camera (nav w')) = fov (camera (nav w)) /\
    w' = mapNav (withCamera (camera (nav w'))) w /\
    translationSpeed == 5 /\ rotationSpeed == 1 /\ deltaTime == 16 # 1000.
Proof.
  eexists. split; [reflexivity|]. simpl.
  repeat (split; [reflexivity|]). reflexivity.
Qed.


(** * Further properties of the store and the controller *)

(** ** Zoom *)

(** X1. [setZoom] clamps: whatever the argument, the stored zoom lies in
    [0.1, 10]; an argument inside that range is stored as it is, one below
    gives 0.1, one above gives 10. Position, target, field of view, history
    and index keep their values. *)
Theorem setZoom_clamps (w : World) (zm : Q) :
  exists w',
    run (setZoom zm) w = Some w' /\
    1 # 10 <= zoom (camera (nav w')) <= 10 /\
    (1 # 10 <= zm -> zm <= 10 -> zoom (camera (nav w')) == zm) /\
    (zm <= 1 # 10 -> zoom (camera (nav w')) == 1 # 10) /\
    (10 <= zm -> zoom (camera (nav w')) == 10) /\
    position (camera (nav w')) = position (camera (nav w)) /\
    target (camera (nav w')) = target (camera (nav w)) /\
    fov (camera (nav w')) = fov (camera (nav w)) /\
    history (nav w') = history (nav w) /\
    currentHistoryIndex (nav w') = currentHistoryIndex (nav w).
Proof.
  eexists. split; [reflexivity|]. simpl.
  destruct (Q.min_spec 10 zm) as [[Hlt Hmin]|[Hle Hmin]];
    destruct (Q.max_spec (1 # 10) (Qmin 10 zm)) as [[Hlt' Hmax]|[Hle' Hmax]];
    rewrite Hmax; rewrite ?Hmin in *;
    repeat split; try reflexivity; try lra; intros; lra.
Qed.

Lemma setZoom_clamps_witness :
  (exists w', run (setZoom (-5 # 1)) (startWorld defaultSettings) = Some w' /\
              zoom (camera (nav w')) == 1 # 10) /\
  (exists w', run (setZoom (1000 # 1)) (startWorld defaultSettings) = Some w' /\
              zoom (camera (nav w')) == 10).
Proof.
  split.
  - destruct (setZoom_clamps (startWorld defaultSettings) (-5 # 1))
      as (w' & Hrun & _ & _ & Hlow & _).
    exists w'. split; [exact Hrun|]. apply Hlow. vm_compute. discriminate.
  - destruct (setZoom_clamps (startWorld defaultSettings) (1000 # 1))
      as (w' & Hrun & _ & _ & _ & Hhigh & _).
    exists w'. split; [exact Hrun|]. apply Hhigh. vm_compute. discriminate.
Defined.

(** ** Walking the history *)

(** X2. Back and forward undo each other. With the index on a valid entry,
    [navigateBack] followed by [navigateForward] (index above 0), and
    [navigateForward] followed by [navigateBack] (index below the newest
    entry), leave the index where it was and the camera on the snapshot
    under it, whatever the camera was before; the history is untouched. *)
Theorem back_and_forward_cancel (w : World)
  (Hlo : (0 <= currentHistoryIndex (nav w))%Z)
  (Hhi : (currentHistoryIndex (nav w) < len (history (nav w)))%Z) :
  exists snapshot,
    index (history (nav w)) (currentHistoryIndex (nav w)) = Some snapshot /\
    ((0 < currentHistoryIndex (nav w))%Z ->
     exists w1 w2,
       run navigateBack w = Some w1 /\
       run navigateForward w1 = Some w2 /\
       camera (nav w2) = snapshot /\
       currentHistoryIndex (nav w2) = currentHistoryIndex (nav w) /\
       history (nav w2) = history (nav w)) /\
    ((currentHistoryIndex (nav w) < len (history (nav w)) - 1)%Z ->
     exists w1 w2,
       run navigateForward w = Some w1 /\
       run navigateBack w1 = Some w2 /\
       camera (nav w2) = snapshot /\
       currentHistoryIndex (nav w2) = currentHistoryIndex (nav w) /\
       history (nav w2) = history (nav w)).
Proof.
  destruct (index_in_range (history (nav w)) (currentHistoryIndex (nav w)))
    as [c Hc]; [lia|].
  exists c. split; [exact Hc|]. split; intro Hpos.
  - destruct (index_in_range (history (nav w))
                (currentHistoryIndex (nav w) - 1)) as [b Hb]; [lia|].
    assert (H1 : run navigateBack w =
                 Some (schedule (animationDuration (nav w))
                         (mapNav (fun state =>
                            withAnimating true
                              (withIndex (currentHistoryIndex (nav w) - 1)
                                         (withCamera b state))) w))).
    { rewrite run_navigateBack.
      destruct (0 <? currentHistoryIndex (nav w))%Z eqn:E;
        [|apply Z.ltb_ge in E; lia].
      rewrite Hb. reflexivity. }
    eexists. eexists. split; [exact H1|].
    rewrite run_navigateForward. simpl.
    destruct (currentHistoryIndex (nav w) - 1
              <? len (history (nav w)) - 1)%Z eqn:E;
      [|apply Z.ltb_ge in E; lia].
    replace (currentHistoryIndex (nav w) - 1 + 1)%Z
      with (currentHistoryIndex (nav w)) by lia.
    rewrite Hc. split; [reflexivity|]. simpl. auto.
  - destruct (index_in_range (history (nav w))
                (currentHistoryIndex (nav w) + 1)) as [b Hb]; [lia|].
    assert (H1 : run navigateForward w =
                 Some (schedule (animationDuration (nav w))
                         (mapNav (fun state =>
                            withAnimating true
                              (withIndex (currentHistoryIndex (nav w) + 1)
                                         (withCamera b state))) w))).
    { rewrite run_navigateForward.
      destruct (currentHistoryIndex (nav w)
                <? len (history (nav w)) - 1)%Z eqn:E;
        [|apply Z.ltb_ge in E; lia].
      rewrite Hb. reflexivity. }
    eexists. eexists. split; [exact H1|].
    rewrite run_navigateBack. simpl.
    destruct (0 <? currentHistoryIndex (nav w) + 1)%Z eqn:E;
      [|apply Z.ltb_ge in E; lia].
    replace (currentHistoryIndex (nav w) + 1 - 1)%Z
      with (currentHistoryIndex (nav w)) by lia.
    rewrite Hc. split; [reflexivity|]. simpl. auto.
Qed.

Lemma back_and_forward_cancel_witness :
  let A := mkCamera (1, 0, 0) (0, 0, 0) 1 75 in
  let B := mkCamera (2 # 1, 0, 0) (0, 0, 0) 1 75 in
  let w := mapNav (fun s => withIndex 1 (withHistory [A; B] s))
                  (startWorld defaultSettings) in
  exists w1 w2,
    run navigateBack w = Some w1 /\
    run navigateForward w1 = Some w2 /\
    camera (nav w2) = B.
Proof.
  intros A B w.
  assert (Hlo : (0 <= currentHistoryIndex (nav w))%Z)
    by (vm_compute; discriminate).
  assert (Hhi : (currentHistoryIndex (nav w) < len (history (nav w)))%Z)
    by reflexivity.
  destruct (back_and_forward_cancel w Hlo Hhi) as (c & Hc & Hbf & _).
  destruct (Hbf eq_refl) as (w1 & w2 & H1 & H2 & Hcam & _).
  exists w1, w2. split; [exact H1|]. split; [exact H2|].
  rewrite Hcam. vm_compute in Hc. inversion Hc. reflexivity.
Defined.

(** X3. At capacity the oldest snapshot goes. With 50 entries and the index
    on the newest one, [addToHistory] stores the old entries but the first,
    followed by the snapshot of the camera: still 50 entries, index 49. *)
Theorem addToHistory_evicts_oldest (w : World)
  (Hfull : len (history (nav w)) = maxHistorySize)
  (Htail : currentHistoryIndex (nav w) = (maxHistorySize - 1)%Z) :
  exists w',
    run addToHistory w = Some w' /\
    history (nav w') = tl (history (nav w)) ++ [camera (nav w)] /\
    len (history (nav w')) = maxHistorySize /\
    currentHistoryIndex (nav w') = (maxHistorySize - 1)%Z /\
    camera (nav w') = camera (nav w).
Proof.
  rewrite run_addToHistory. eexists. split; [reflexivity|]. simpl.
  assert (Hc : committed (nav w)
               = tl (history (nav w)) ++ [camera (nav w)]).
  { unfold committed, push, shift.
    destruct (slice0_prefix (history (nav w))
                (currentHistoryIndex (nav w) + 1)) as [Hp Hl];
      [rewrite Htail, Hfull; unfold maxHistorySize; lia|].
    rewrite Hp, Htail.
    replace (Z.to_nat (maxHistorySize - 1 + 1))
      with (length (history (nav w)))
      by (unfold len in Hfull; lia).
    rewrite firstn_all, len_app, Hfull. unfold len at 1. simpl length.
    replace (maxHistorySize <? maxHistorySize + 1)%Z with true
      by (symmetry; apply Z.ltb_lt; lia).
    destruct (history (nav w)) as [|c h];
      [unfold len, maxHistorySize in Hfull; simpl in Hfull; lia|].
    reflexivity. }
  rewrite Hc.
  assert (Hl : len (tl (history (nav w)) ++ [camera (nav w)])
               = maxHistorySize).
  { rewrite len_app. unfold len in *.
    destruct (history (nav w)) as [|c h];
      [unfold maxHistorySize in Hfull; simpl in Hfull; lia|].
    cbn [tl length] in *. lia. }
  rewrite Hl. auto.
Qed.

Lemma addToHistory_evicts_oldest_witness :
  let first := mkCamera (7 # 1, 0, 0) (0, 0, 0) 1 75 in
  let w := mapNav (fun s =>
                     withIndex 49
                       (withHistory (first :: repeat defaultCameraState 49) s))
                  (startWorld defaultSettings) in
  exists w',
    run addToHistory w = Some w' /\
    history (nav w') = repeat defaultCameraState 50.
Proof.
  intros first w.
  destruct (addToHistory_evicts_oldest w eq_refl eq_refl)
    as (w' & Hrun & Hh & _).
  exists w'. split; [exact Hrun|]. rewrite Hh. reflexivity.
Defined.

(** ** The controller, call by call *)

Lemma run_handleMotion m w :
  let p := processedMotionOf (settings w) m in
  run (handleMotion m) w =
  Some (mkWorld (withSpaceMouseActive true (nav w)) (timeouts w)
                (settings w)
                (mkController (bufferAfter (controller w) p) (Some p)
                              (smoothingBuffer (controller w)))
                (if hasSignificantMotion p then S (navigationMoves w)
                 else navigationMoves w)).
Proof.
  intro p. unfold handleMotion, run, bind, getSettings, getThis, putThis,
    setSpaceMouseActive, set, playNavigationMove, ret, mapNav. simpl.
  fold p. destruct (hasSignificantMotion p); reflexivity.
Qed.

Lemma rev_head_last {A} (l : list A) (a d : A) (r : list A) :
  rev l = a :: r -> last l d = a.
Proof.
  intro H. rewrite <- (rev_involutive l), H. simpl. apply last_last.
Qed.

Lemma run_processMotion w :
  run processMotion w =
  Some (match rev (motionBuffer (controller w)) with
        | [] => w
        | latest :: _ => frameStep latest w
        end).
Proof.
  unfold processMotion, applySmoothingFilter, applyMotionToCamera,
    setCameraPosition, setCameraTarget.
  unfold run, bind, getThis, getSettings, putThis, get, set, ret. simpl.
  destruct (0 <? len (motionBuffer (controller w)))%Z eqn:E.
  - simpl. destruct (rev (motionBuffer (controller w))); reflexivity.
  - apply Z.ltb_ge in E.
    destruct (motionBuffer (controller w)) as [|m mb];
      [reflexivity | unfold len in E; simpl in E; lia].
Qed.

(** The frame loop on a non-empty motion buffer. *)
Lemma run_processMotion_latest w d :
  motionBuffer (controller w) <> [] ->
  run processMotion w =
  Some (frameStep (last (motionBuffer (controller w)) d) w).
Proof.
  intro Hne. rewrite run_processMotion.
  destruct (rev (motionBuffer (controller w))) as [|latest r] eqn:E.
  - exfalso. apply Hne. rewrite <- (rev_involutive _), E. reflexivity.
  - rewrite (rev_head_last _ _ d _ E). reflexivity.
Qed.

(** ** What no call changes *)

Ltac invert_run H :=
  match type of H with
  | Some _ = Some _ => inversion H; subst; clear H
  | None = Some _ => discriminate H
  | (if ?c then _ else _) = Some _ => destruct c eqn:?; invert_run H
  | match ?o with Some _ => _ | None => _ end = Some _ =>
      destruct o eqn:?; invert_run H
  | match ?l with [] => _ | _ :: _ => _ end = Some _ =>
      destruct l eqn:?; invert_run H
  end.

Lemma run_timeoutFires w :
  run timeoutFires w =
  Some (match timeouts w with
        | [] => w
        | _ :: rest =>
            mkWorld (withAnimating false (nav w)) rest (settings w)
                    (controller w) (navigationMoves w)
        end).
Proof. unfold run, timeoutFires. destruct (timeouts w); reflexivity. Qed.

Lemma run_updateFromThreeCamera cam w :
  run (updateFromThreeCamera cam) w =
  Some (match cam with
        | PerspectiveCamera pos direction zm fv =>
            mapNav (withCamera
                      (mkCamera pos
                         (at0 pos + at0 direction * 10,
                          at1 pos + at1 direction * 10,
                          at2 pos + at2 direction * 10) zm fv)) w
        | OtherCamera => w
        end).
Proof. destruct cam; reflexivity. Qed.

Lemma run_setZoom zm w :
  run (setZoom zm) w =
  Some (mapNav (fun state =>
                  withCamera (mkCamera (position (camera state))
                                       (target (camera state))
                                       (Qmax (1 # 10) (Qmin 10 zm))
                                       (fov (camera state))) state) w).
Proof. reflexivity. Qed.

Lemma run_setDragging b w :
  run (setDragging b) w = Some (mapNav (withDragging b) w).
Proof. reflexivity. Qed.

Lemma run_setSpaceMouseActive b w :
  run (setSpaceMouseActive b) w = Some (mapNav (withSpaceMouseActive b) w).
Proof. reflexivity. Qed.

(** The result of any single call, in closed form. *)
Ltac run_perform H :=
  simpl perform in H;
  first
    [ rewrite run_addToHistory in H
    | rewrite run_navigateBack in H
    | rewrite run_navigateForward in H
    | rewrite run_resetCamera in H
    | rewrite run_animateToPosition in H
    | rewrite run_setCameraPosition in H
    | rewrite run_setCameraTarget in H
    | rewrite run_setZoom in H
    | rewrite run_setDragging in H
    | rewrite run_setSpaceMouseActive in H
    | rewrite run_updateFromThreeCamera in H
    | rewrite run_timeoutFires in H
    | rewrite run_handleMotion in H
    | rewrite run_processMotion in H ].

(** Case analysis on what a call found, once its result is known. *)
Ltac split_run H :=
  repeat invert_run H;
  repeat match goal with
         | |- context [match ?x with _ => _ end] => destruct x
         end;
  simpl; auto.

Lemma perform_constants a w w' :
  run (perform a) w = Some w' -> constants w w'.
Proof.
  intro H. unfold constants.
  destruct a; run_perform H; split_run H.
Qed.

(** The store's calls never touch the controller or the audio. *)
Lemma perform_store_frame a w w' :
  storeCall a = true ->
  run (perform a) w = Some w' ->
  controller w' = controller w /\ navigationMoves w' = navigationMoves w.
Proof.
  intros Ha H.
  destruct a; try discriminate Ha; run_perform H; split_run H.
Qed.

(** A property every call keeps holds after every sequence that runs. *)
Lemma performAll_preserves (P : World -> Prop) :
  (forall a w w', P w -> run (perform a) w = Some w' -> P w') ->
  forall l w w', P w -> run (performAll l) w = Some w' -> P w'.
Proof.
  intros Hstep l. induction l as [|a l IH]; intros w w' HP H.
  - inversion H; subst. exact HP.
  - simpl performAll in H. rewrite run_seq in H.
    destruct (run (perform a) w) as [w1|] eqn:E; [|discriminate].
    apply (IH w1 w'); [|exact H]. apply (Hstep a w w1); assumption.
Qed.

(** Every sequence of calls from start-up runs to its end. *)
Lemma performAll_from_start st l :
  exists w, run (performAll l) (startWorld st) = Some w.
Proof.
  destruct (performAll_historyInv l (startWorld st) historyInv_initial)
    as (w & H & _).
  exists w. exact H.
Qed.

(** ** Reset, and the animating flag *)

(** X4. No call ever changes [defaultCamera], [animationDuration] or the
    settings: after any sequence of calls from start-up they are what they
    were at start-up, so [resetCamera] always puts the camera on the pose
    position (0, 0, 10), target (0, 0, 0), zoom 1, field of view 75, raises
    the animating flag and leaves the history and its index alone. *)
Theorem resetCamera_returns_to_startup_pose
  (st : SpaceMouseSettings) (calls : list Action) :
  exists w w',
    run (performAll calls) (startWorld st) = Some w /\
    defaultCamera (nav w) = defaultCameraState /\
    animationDuration (nav w) = 1000 /\
    settings w = st /\
    run resetCamera w = Some w' /\
    camera (nav w') = mkCamera (0, 0, 10) (0, 0, 0) 1 75 /\
    isAnimating (nav w') = true /\
    history (nav w') = history (nav w) /\
    currentHistoryIndex (nav w') = currentHistoryIndex (nav w).
Proof.
  destruct (performAll_from_start st calls) as [w Hrun].
  assert (Hc : constants (startWorld st) w).
  { apply (performAll_preserves (constants (startWorld st)))
      with (l := calls) (w := startWorld st); [| |exact Hrun].
    - intros a w1 w2 (H1 & H2 & H3) Hstep.
      destruct (perform_constants a w1 w2 Hstep) as (G1 & G2 & G3).
      unfold constants. rewrite G1, G2, G3. auto.
    - unfold constants. auto. }
  destruct Hc as (Hd & Ha & Hs). simpl in Hd, Ha, Hs.
  exists w. eexists. split; [exact Hrun|].
  split; [exact Hd|]. split; [exact Ha|]. split; [exact Hs|].
  rewrite run_resetCamera. split; [reflexivity|]. simpl.
  rewrite Hd. auto.
Qed.



(** ** The buffers of the controller *)

(** Pushing onto a bounded array and shifting on overflow. *)
Lemma push_then_shift {A} (n : Z) (l : list A) (v : A) :
  (0 < n)%Z -> (len l <= n)%Z ->
  (if (n <? len (push l v))%Z then shift (push l v) else push l v)
  = (if (len l =? n)%Z then tl l else l) ++ [v].
Proof.
  intros Hn Hl. unfold push, shift. rewrite len_app.
  replace (len [v]) with 1%Z by reflexivity.
  destruct (len l =? n)%Z eqn:E.
  - apply Z.eqb_eq in E.
    replace (n <? len l + 1)%Z with true
      by (symmetry; apply Z.ltb_lt; lia).
    destruct l as [|a l]; [unfold len in E; simpl in E; lia|].
    reflexivity.
  - apply Z.eqb_neq in E.
    replace (n <? len l + 1)%Z with false
      by (symmetry; apply Z.ltb_ge; lia).
    reflexivity.
Qed.

Lemma push_then_shift_length {A} (n : Z) (l : list A) (v : A) :
  (0 < n)%Z -> (len l <= n)%Z ->
  len ((if (len l =? n)%Z then tl l else l) ++ [v])
  = (if (len l =? n)%Z then n else len l + 1)%Z.
Proof.
  intros Hn Hl. rewrite len_app. replace (len [v]) with 1%Z by reflexivity.
  destruct (len l =? n)%Z eqn:E; [|reflexivity].
  apply Z.eqb_eq in E.
  destruct l as [|a l]; [unfold len in E; simpl in E; lia|].
  unfold len in *. cbn [tl length] in *. lia.
Qed.

Lemma bufferAfter_spec c p :
  (len (motionBuffer c) <= 10)%Z ->
  bufferAfter c p =
    (if (len (motionBuffer c) =? 10)%Z then tl (motionBuffer c)
     else motionBuffer c) ++ [p]
  /\ (len (bufferAfter c p) <= 10)%Z
  /\ bufferAfter c p <> []
  /\ last (bufferAfter c p) p = p.
Proof.
  intro Hlen.
  assert (Hb : bufferAfter c p =
    (if (len (motionBuffer c) =? 10)%Z then tl (motionBuffer c)
     else motionBuffer c) ++ [p]).
  { unfold bufferAfter. apply push_then_shift; [lia | exact Hlen]. }
  rewrite Hb. split; [reflexivity|]. split; [|split].
  - rewrite push_then_shift_length by lia.
    destruct (len (motionBuffer c) =? 10)%Z eqn:E; [lia|].
    apply Z.eqb_neq in E. lia.
  - intro H. apply app_eq_nil in H. destruct H as [_ H]. discriminate.
  - apply last_last.
Qed.


Lemma windowsAfter_spec c latest axis :
  (len (smoothingBuffer c axis) <= 5)%Z ->
  windowsAfter c latest axis =
    (if (len (smoothingBuffer c axis) =? 5)%Z
     then tl (smoothingBuffer c axis)
     else smoothingBuffer c axis) ++ [axisValue latest axis].
Proof.
  intro Hlen. unfold windowsAfter. apply push_then_shift; [lia | exact Hlen].
Qed.

Lemma windowsAfter_length c latest axis :
  (len (smoothingBuffer c axis) <= 5)%Z ->
  len (windowsAfter c latest axis) =
    (if (len (smoothingBuffer c axis) =? 5)%Z then 5
     else len (smoothingBuffer c axis) + 1)%Z.
Proof.
  intro Hlen. rewrite windowsAfter_spec by exact Hlen.
  apply push_then_shift_length; [lia | exact Hlen].
Qed.

Lemma buffersBounded_initial : buffersBounded initialController.
Proof.
  unfold buffersBounded, initialController, len. simpl.
  split; [lia|]. split; [intro; lia|]. split; [reflexivity|reflexivity].
Qed.

Lemma perform_buffersBounded a w w' :
  buffersBounded (controller w) ->
  run (perform a) w = Some w' ->
  buffersBounded (controller w').
Proof.
  intros Hb H. destruct (storeCall a) eqn:Ha.
  - destruct (perform_store_frame a w w' Ha H) as [-> _]. exact Hb.
  - destruct Hb as (Hmb & Hwin & Heq & Hlast).
    destruct a; try discriminate Ha; run_perform H;
      inversion H; subst; clear H.
    + destruct (bufferAfter_spec (controller w)
                  (processedMotionOf (settings w) motion) Hmb)
        as (_ & Hl & Hne & Hla).
      unfold buffersBounded. simpl. auto.
    + destruct (rev (motionBuffer (controller w))) as [|latest r];
        [unfold buffersBounded; auto|].
      unfold buffersBounded. simpl.
      split; [exact Hmb|]. split; [|split; [|exact Hlast]].
      * intro axis.
        rewrite (windowsAfter_length _ latest axis (Hwin axis)).
        specialize (Hwin axis).
        destruct (len (smoothingBuffer (controller w) axis) =? 5)%Z eqn:E;
          [lia|]. apply Z.eqb_neq in E. lia.
      * intro axis.
        pose proof (windowsAfter_length _ latest axis (Hwin axis)) as H1.
        pose proof (windowsAfter_length _ latest ax_x (Hwin ax_x)) as H2.
        unfold len in H1, H2. rewrite (Heq axis) in H1.
        rewrite <- H2 in H1. lia.
Qed.

(** X6. The buffers stay bounded. After any sequence of calls from
    start-up the motion buffer holds at most 10 samples, every smoothing
    window holds at most 5 values, the six windows have the same length, and
    [lastMotion] is the newest sample of the motion buffer (or both are
    empty). *)
Theorem controller_buffers_bounded
  (st : SpaceMouseSettings) (calls : list Action) :
  exists w,
    run (performAll calls) (startWorld st) = Some w /\
    (length (motionBuffer (controller w)) <= 10)%nat /\
    (forall axis,
       (length (smoothingBuffer (controller w) axis) <= 5)%nat /\
       length (smoothingBuffer (controller w) axis)
       = length (smoothingBuffer (controller w) ax_x)) /\
    match lastMotion (controller w) with
    | Some m => motionBuffer (controller w) <> [] /\
                last (motionBuffer (controller w)) m = m
    | None => motionBuffer (controller w) = []
    end.
Proof.
  destruct (performAll_from_start st calls) as [w Hrun].
  exists w. split; [exact Hrun|].
  assert (Hb : buffersBounded (controller w)).
  { apply (performAll_preserves (fun w => buffersBounded (controller w)))
      with (l := calls) (w := startWorld st); [| |exact Hrun].
    - intros a w1 w2. apply perform_buffersBounded.
    - apply buffersBounded_initial. }
  destruct Hb as (Hmb & Hwin & Heq & Hlast). unfold len in *.
  split; [lia|]. split; [|exact Hlast].
  intro axis. specialize (Hwin axis). split; [lia | apply Heq].
Qed.

(** X7. The motion buffer keeps the ten newest samples. On a buffer of at
    most ten samples [handleMotion] appends the processed sample, after
    dropping the oldest one when the buffer already held ten; the smoothing
    windows and the camera are not touched, and the store's
    [isSpaceMouseActive] becomes true. *)
Theorem handleMotion_keeps_newest_ten
  (w : World) (motion : SpaceMouseMotion.t)
  (Hlen : (length (motionBuffer (controller w)) <= 10)%nat) :
  exists w',
    run (handleMotion motion) w = Some w' /\
    motionBuffer (controller w') =
      (if Nat.eqb (length (motionBuffer (controller w))) 10
       then tl (motionBuffer (controller w))
       else motionBuffer (controller w))
      ++ [processedMotionOf (settings w) motion] /\
    smoothingBuffer (controller w') = smoothingBuffer (controller w) /\
    camera (nav w') = camera (nav w) /\
    history (nav w') = history (nav w) /\
    isSpaceMouseActive (nav w') = true.
Proof.
  rewrite run_handleMotion. eexists. split; [reflexivity|]. simpl.
  destruct (bufferAfter_spec (controller w)
              (processedMotionOf (settings w) motion)) as (Hb & _);
    [unfold len; lia|].
  rewrite Hb. split; [|auto].
  destruct (Nat.eqb (length (motionBuffer (controller w))) 10) eqn:E.
  - apply Nat.eqb_eq in E.
    replace (len (motionBuffer (controller w)) =? 10)%Z with true
      by (symmetry; apply Z.eqb_eq; unfold len; lia).
    reflexivity.
  - apply Nat.eqb_neq in E.
    replace (len (motionBuffer (controller w)) =? 10)%Z with false
      by (symmetry; apply Z.eqb_neq; unfold len; lia).
    reflexivity.
Qed.

Lemma handleMotion_keeps_newest_ten_witness :
  let m := SpaceMouseMotion.mk 1 0 0 0 0 0 0 in
  exists w',
    run (handleMotion m) (startWorld defaultSettings) = Some w' /\
    motionBuffer (controller w') = [processedMotionOf defaultSettings m].
Proof.
  intro m.
  assert (Hlen : (length (motionBuffer
                            (controller (startWorld defaultSettings)))
                  <= 10)%nat) by (simpl; lia).
  destruct (handleMotion_keeps_newest_ten (startWorld defaultSettings) m Hlen)
    as (w' & Hrun & Hb & _).
  exists w'. split; [exact Hrun | exact Hb].
Defined.

(** ** The navigation sound *)

Lemma hasSignificantMotion_true_iff p :
  hasSignificantMotion p = true <->
  exists axis, 1 # 100 < Qabs (axisValue p axis).
Proof.
  unfold hasSignificantMotion, Num.gtb.
  rewrite !orb_true_iff, !NumFacts.ltb_lt. split.
  - intros [[[[[H|H]|H]|H]|H]|H];
      [exists ax_x | exists ax_y | exists ax_z
       | exists ax_rx | exists ax_ry | exists ax_rz]; exact H.
  - intros [[] H]; simpl in H; tauto.
Qed.

(** X8. The navigation sound is requested once per sample, and only for a
    sample that moves: [handleMotion] calls [playNavigationMove] exactly
    once when some axis of the processed sample exceeds 0.01 in magnitude
    and not at all otherwise. A raw sample that lies inside the dead zone on
    every axis is still pushed, with every axis zero, and is silent. *)
Theorem navigation_sound_once_per_moving_sample
  (w : World) (motion : SpaceMouseMotion.t) :
  exists w' processed,
    run (handleMotion motion) w = Some w' /\
    lastMotion (controller w') = Some processed /\
    ((exists axis, 1 # 100 < Qabs (axisValue processed axis)) ->
     navigationMoves w' = S (navigationMoves w)) /\
    ((forall axis, Qabs (axisValue processed axis) <= 1 # 100) ->
     navigationMoves w' = navigationMoves w) /\
    ((forall axis, Qabs (axisValue motion axis) < deadZone (settings w)) ->
     navigationMoves w' = navigationMoves w /\
     forall axis, axisValue processed axis == 0).
Proof.
  rewrite run_handleMotion.
  set (p := processedMotionOf (settings w) motion).
  eexists. exists p. split; [reflexivity|]. simpl.
  split; [reflexivity|].
  assert (Hquiet : (forall axis, Qabs (axisValue p axis) <= 1 # 100) ->
                   hasSignificantMotion p = false).
  { intro Hall. destruct (hasSignificantMotion p) eqn:E; [|reflexivity].
    apply hasSignificantMotion_true_iff in E. destruct E as [axis Ha].
    specialize (Hall axis). lra. }
  split; [|split].
  - intro Hex. apply hasSignificantMotion_true_iff in Hex.
    rewrite Hex. reflexivity.
  - intro Hall. rewrite (Hquiet Hall). reflexivity.
  - intro Hin.
    assert (Hzero : forall axis, axisValue p axis == 0).
    { intro axis. unfold p. rewrite processedMotionOf_axis.
      rewrite (deadZone_inside _ _ (Hin axis)).
      destruct (invertOf (settings w) axis); unfold invertIf; ring. }
    split; [|exact Hzero].
    rewrite Hquiet; [reflexivity|].
    intro axis. rewrite (Hzero axis). vm_compute. discriminate.
Qed.

Lemma navigation_sound_once_per_moving_sample_witness :
  exists w' w'',
    run (handleMotion (SpaceMouseMotion.mk (1 # 2) 0 0 0 0 0 0))
        (startWorld defaultSettings) = Some w' /\
    navigationMoves w' = 1%nat /\
    run (handleMotion (SpaceMouseMotion.mk (1 # 20) 0 0 0 0 0 0)) w'
      = Some w'' /\
    navigationMoves w'' = 1%nat.
Proof.
  destruct (navigation_sound_once_per_moving_sample
              (startWorld defaultSettings)
              (SpaceMouseMotion.mk (1 # 2) 0 0 0 0 0 0))
    as (w' & p & Hrun & Hlast & Hloud & _).
  assert (Hp : p = processedMotionOf defaultSettings
                     (SpaceMouseMotion.mk (1 # 2) 0 0 0 0 0 0)).
  { rewrite run_handleMotion in Hrun. inversion Hrun; subst w'.
    simpl in Hlast. inversion Hlast. reflexivity. }
  assert (Hs : settings w' = defaultSettings).
  { rewrite run_handleMotion in Hrun. inversion Hrun. reflexivity. }
  destruct (navigation_sound_once_per_moving_sample w'
              (SpaceMouseMotion.mk (1 # 20) 0 0 0 0 0 0))
    as (w'' & q & Hrun' & _ & _ & _ & Hquiet).
  exists w', w''. split; [exact Hrun|].
  assert (H1 : navigationMoves w' = 1%nat).
  { apply Hloud. exists ax_x. rewrite Hp. reflexivity. }
  split; [exact H1|]. split; [exact Hrun'|].
  rewrite <- H1. apply Hquiet.
  intro axis. rewrite Hs. destruct axis; reflexivity.
Defined.

(** ** The shape of the dead zone *)




(** ** Inversion *)

(** X10. Inverting an axis negates that axis of the processed sample and
    no other; the magnitude is unchanged, and switching the flag twice gives
    the settings back. *)
Theorem inversion_negates_one_axis
  (st : SpaceMouseSettings) (motion : SpaceMouseMotion.t) (a : Axis) :
  let st' := withInvert st a (negb (invertOf st a)) in
  axisValue (processedMotionOf st' motion) a
  == - axisValue (processedMotionOf st motion) a /\
  (forall a', a' <> a ->
     axisValue (processedMotionOf st' motion) a'
     = axisValue (processedMotionOf st motion) a') /\
  withInvert st' a (negb (invertOf st' a)) = st.
Proof.
  destruct st as [s ix iy iz irx iry irz d sm].
  destruct a; simpl; (split; [|split]);
    try (intros [] Hne; try reflexivity; contradiction);
    try (destruct ix, iy, iz, irx, iry, irz; reflexivity);
    match goal with
    | |- context [invertIf (negb ?b)] => destruct b
    end; unfold invertIf, negb; ring.
Qed.

Lemma inversion_negates_one_axis_witness :
  let m := SpaceMouseMotion.mk (1 # 2) (1 # 2) 0 0 0 0 0 in
  let st' := withInvert defaultSettings ax_x true in
  axisValue (processedMotionOf st' m) ax_x
  == - axisValue (processedMotionOf defaultSettings m) ax_x /\
  axisValue (processedMotionOf st' m) ax_y
  = axisValue (processedMotionOf defaultSettings m) ax_y.
Proof.
  intros m st'.
  destruct (inversion_negates_one_axis defaultSettings m ax_x)
    as (Hneg & Hsame & _).
  split; [exact Hneg|]. apply Hsame. discriminate.
Defined.

(** ** Keyboard fallback *)

Lemma run_processKeyboardInput keyState now w :
  run (processKeyboardInput keyState now) w =
  let m := keyboardSample keyState (sensitivity (settings w) * (1 # 10)) now in
  if anyAxisNonZero m then run (handleMotion m) w else Some w.
Proof.
  unfold processKeyboardInput, keyboardSample, anyAxisNonZero.
  unfold run at 1. unfold bind at 1. unfold getSettings at 1.
  cbv zeta. cbn [SpaceMouseMotion.x SpaceMouseMotion.y SpaceMouseMotion.z
                 SpaceMouseMotion.rx SpaceMouseMotion.ry SpaceMouseMotion.rz].
  match goal with
  | |- context [if ?c then handleMotion _ else _] => destruct c
  end; reflexivity.
Qed.

(** What one axis of the keyboard sample can be. *)
Lemma keyboard_step_cases (neg pos : bool) (s : Q) :
  let v := if pos then (if neg then 0 - s else 0) + s
           else (if neg then 0 - s else 0) in
  (neg = pos -> v == 0) /\ (0 <= s -> Qabs v <= s) /\
  (neg = false -> pos = true -> v == s) /\
  (neg = true -> pos = false -> v == - s).
Proof.
  destruct neg, pos; cbv zeta iota; (split; [|split; [|split]]); intros;
    try discriminate; try ring; apply Qabs_Qle_condition; split; lra.
Qed.

Lemma keyboard_step_cases' (pos neg : bool) (s : Q) :
  let v := if neg then (if pos then 0 + s else 0) - s
           else (if pos then 0 + s else 0) in
  (neg = pos -> v == 0) /\ (0 <= s -> Qabs v <= s) /\
  (neg = false -> pos = true -> v == s) /\
  (neg = true -> pos = false -> v == - s).
Proof.
  destruct neg, pos; cbv zeta iota; (split; [|split; [|split]]); intros;
    try discriminate; try ring; apply Qabs_Qle_condition; split; lra.
Qed.


Lemma keyboardSample_balanced keyState s now :
  keysBalanced keyState ->
  anyAxisNonZero (keyboardSample keyState s now) = false.
Proof.
  intros (Hx & Hz & Hy & Hry & Hrx & Hrz).
  unfold anyAxisNonZero, keyboardSample. cbv zeta.
  cbn [SpaceMouseMotion.x SpaceMouseMotion.y SpaceMouseMotion.z
       SpaceMouseMotion.rx SpaceMouseMotion.ry SpaceMouseMotion.rz].
  rewrite !orb_false_iff, !negb_false_iff, !Qeq_bool_iff.
  repeat split.
  - apply (keyboard_step_cases (keyState "KeyA"%string)
             (keyState "KeyD"%string) s). exact Hx.
  - apply (keyboard_step_cases' (keyState "KeyQ"%string)
             (keyState "KeyE"%string) s). symmetry. exact Hy.
  - apply (keyboard_step_cases (keyState "KeyW"%string)
             (keyState "KeyS"%string) s). exact Hz.
  - apply (keyboard_step_cases (keyState "ArrowUp"%string)
             (keyState "ArrowDown"%string) s). exact Hrx.
  - apply (keyboard_step_cases (keyState "ArrowLeft"%string)
             (keyState "ArrowRight"%string) s). exact Hry.
  - apply (keyboard_step_cases
             (keyState "ShiftLeft"%string || keyState "ShiftRight"%string)
             (keyState "ControlLeft"%string
              || keyState "ControlRight"%string) s). exact Hrz.
Qed.

(** X11. The keyboard sends nothing when nothing is left to send. When no
    mapped key is held, and more generally when every held key is cancelled
    by the opposite one, [processKeyboardInput] pushes no sample and leaves
    the whole state as it is; so the release of the last key pushes no
    sample of rest, and the newest buffered sample stays the one of the held
    key. *)
Theorem keyboard_sends_nothing_when_balanced
  (keyState : KeyState) (now : Q) (w : World) :
  (keysBalanced keyState ->
   run (processKeyboardInput keyState now) w = Some w) /\
  ((forall code, In code mappedKeys -> keyState code = false) ->
   run (processKeyboardInput keyState now) w = Some w) /\
  (forall code,
     (forall other, other <> code -> keyState other = false) ->
     run (snd (handleKeyUp keyState code now)) w = Some w).
Proof.
  assert (Hbal : forall ks, keysBalanced ks ->
            run (processKeyboardInput ks now) w = Some w).
  { intros ks H. rewrite run_processKeyboardInput. cbv zeta.
    rewrite (keyboardSample_balanced ks _ now H). reflexivity. }
  assert (Hnone : forall ks,
            (forall code, In code mappedKeys -> ks code = false) ->
            keysBalanced ks).
  { intros ks H. unfold keysBalanced.
    rewrite !H by (unfold mappedKeys; simpl; tauto).
    repeat split. }
  split; [apply Hbal|]. split.
  - intro H. apply Hbal, Hnone, H.
  - intros code H. unfold handleKeyUp. cbn [snd].
    apply Hbal, Hnone. intros c _. unfold setKey.
    destruct (String.eqb c code) eqn:E; [reflexivity|].
    apply H. intro Heq. subst c. rewrite String.eqb_refl in E. discriminate.
Qed.

Lemma keyboard_sends_nothing_when_balanced_witness :
  run (snd (handleKeyUp (setKey noKeys "KeyW"%string true) "KeyW"%string 0))
      (startWorld defaultSettings)
  = Some (startWorld defaultSettings) /\
  run (processKeyboardInput
         (setKey (setKey noKeys "KeyA"%string true) "KeyD"%string true) 0)
      (startWorld defaultSettings)
  = Some (startWorld defaultSettings).
Proof.
  destruct (keyboard_sends_nothing_when_balanced
              (setKey noKeys "KeyW"%string true) 0
              (startWorld defaultSettings))
    as (_ & _ & Hup).
  destruct (keyboard_sends_nothing_when_balanced
              (setKey (setKey noKeys "KeyA"%string true) "KeyD"%string true)
              0 (startWorld defaultSettings)) as (Hbal & _).
  split.
  - apply Hup. intros other Hne. unfold setKey, noKeys.
    destruct (String.eqb other "KeyW"%string) eqn:E; [|reflexivity].
    apply String.eqb_eq in E. contradiction.
  - apply Hbal. unfold keysBalanced. repeat split.
Defined.





(** X13. Above the dead zone the sensitivity enters twice on the keyboard
    path: once in the raw value of a key (a tenth of the sensitivity) and
    once in [handleMotion]. With only the right-hand key of the x axis held
    ([KeyD], not [KeyA]) and a tenth of the sensitivity s above the dead
    zone d, the pushed x axis has magnitude s * (s/10 - d) / (1 - d). *)
Theorem keyboard_applies_sensitivity_twice
  (keyState : KeyState) (now : Q) (w : World)
  (Hd0 : 0 <= deadZone (settings w)) (Hd1 : deadZone (settings w) < 1)
  (Hhigh : deadZone (settings w) < sensitivity (settings w) * (1 # 10))
  (HD : keyState "KeyD"%string = true)
  (HA : keyState "KeyA"%string = false) :
  exists w' processed,
    run (processKeyboardInput keyState now) w = Some w' /\
    lastMotion (controller w') = Some processed /\
    Qabs (axisValue processed ax_x)
    == sensitivity (settings w)
       * (sensitivity (settings w) * (1 # 10) - deadZone (settings w))
       / (1 - deadZone (settings w)).
Proof.
  rewrite run_processKeyboardInput. cbv zeta.
  set (s := sensitivity (settings w)) in *.
  set (d := deadZone (settings w)) in *.
  set (m := keyboardSample keyState (s * (1 # 10)) now).
  assert (Hx : SpaceMouseMotion.x m == s * (1 # 10)).
  { unfold m, keyboardSample. cbv zeta. cbn [SpaceMouseMotion.x].
    rewrite HD, HA. ring. }
  assert (Hany : anyAxisNonZero m = true).
  { unfold anyAxisNonZero.
    destruct (Qeq_bool (SpaceMouseMotion.x m) 0) eqn:E; [|reflexivity].
    apply Qeq_bool_iff in E. rewrite Hx in E. lra. }
  rewrite Hany, run_handleMotion. cbv zeta.
  eexists. eexists. split; [reflexivity|]. simpl lastMotion.
  split; [reflexivity|].
  rewrite processedMotionOf_axis. fold d. fold s.
  rewrite Qabs_Qmult, invertIf_abs.
  change (axisValue m ax_x) with (SpaceMouseMotion.x m).
  assert (Habs : Qabs (SpaceMouseMotion.x m) == s * (1 # 10)).
  { rewrite Hx. apply Qabs_pos. lra. }
  assert (Hdz : Qabs (applyDeadZoneToValue d (SpaceMouseMotion.x m))
                == (s * (1 # 10) - d) / (1 - d)).
  { rewrite (deadZone_abs d Hd0 Hd1) by (rewrite Habs; lra).
    rewrite Habs. reflexivity. }
  rewrite Hdz, (Qabs_pos s) by lra.
  unfold Qdiv. ring.
Qed.

Lemma keyboard_applies_sensitivity_twice_witness :
  let st := mkSettings (5 # 1) false false false false false false
                       (1 # 10) (8 # 10) in
  exists w' processed,
    run (processKeyboardInput (setKey noKeys "KeyD"%string true) 0)
        (startWorld st) = Some w' /\
    lastMotion (controller w') = Some processed /\
    Qabs (axisValue processed ax_x) == 20 # 9.
Proof.
  intro st.
  assert (Hd0 : 0 <= deadZone (settings (startWorld st)))
    by (vm_compute; discriminate).
  assert (Hd1 : deadZone (settings (startWorld st)) < 1) by reflexivity.
  assert (Hhigh : deadZone (settings (startWorld st))
                  < sensitivity (settings (startWorld st)) * (1 # 10))
    by reflexivity.
  destruct (keyboard_applies_sensitivity_twice
              (setKey noKeys "KeyD"%string true) 0 (startWorld st)
              Hd0 Hd1 Hhigh eq_refl eq_refl)
    as (w' & p & Hrun & Hlast & Habs).
  exists w', p. split; [exact Hrun|]. split; [exact Hlast|].
  rewrite Habs. reflexivity.
Defined.

(** ** Smoothing: edge cases and weights *)

Lemma fold_blend_one alpha l :
  alpha == 1 -> forall s, fold_left (blend alpha) l s == s.
Proof.
  intro Ha. induction l as [|b l IH]; intro s; [reflexivity|].
  simpl. rewrite IH. unfold blend. rewrite Ha. ring.
Qed.



(** X14. Edge cases of the smoothing. An empty window gives 0; a window of
    one value gives that value for every coefficient; with the coefficient 1
    the result is the oldest value of the window, whatever came after. *)
Theorem smoothing_edge_cases
  (this : Controller) (axis : Axis) (alpha : Q) :
  (smoothingBuffer this axis = [] ->
   calculateSmoothedValue this axis alpha = 0) /\
  (forall v, smoothingBuffer this axis = [v] ->
   calculateSmoothedValue this axis alpha = v) /\
  (forall v0 rest, smoothingBuffer this axis = v0 :: rest ->
   alpha == 1 -> calculateSmoothedValue this axis alpha == v0).
Proof.
  split; [|split].
  - intro H. unfold calculateSmoothedValue. rewrite H. reflexivity.
  - intros v H. rewrite (calculateSmoothedValue_cons this axis alpha v [] H).
    destruct (Qeq_bool alpha 0); reflexivity.
  - intros v0 rest H Ha.
    rewrite (calculateSmoothedValue_cons this axis alpha v0 rest H).
    destruct (Qeq_bool alpha 0) eqn:E.
    + apply Qeq_bool_iff in E. rewrite Ha in E. discriminate E.
    + apply fold_blend_one. exact Ha.
Qed.

Lemma smoothing_edge_cases_witness :
  calculateSmoothedValue (mkController [] None (fun _ => [])) ax_x (8 # 10)
  = 0 /\
  calculateSmoothedValue
    (mkController [] None (fun _ => [3 # 1; 5 # 1; 9 # 1])) ax_x 1
  == 3 # 1.
Proof.
  destruct (smoothing_edge_cases (mkController [] None (fun _ => []))
              ax_x (8 # 10)) as (Hempty & _ & _).
  destruct (smoothing_edge_cases
              (mkController [] None (fun _ => [3 # 1; 5 # 1; 9 # 1]))
              ax_x 1) as (_ & _ & Hone).
  split.
  - apply Hempty. reflexivity.
  - apply (Hone (3 # 1) [5 # 1; 9 # 1]); reflexivity.
Defined.





(** ** Frames without new input *)

Lemma windowsAfter_pushWindow c latest axis :
  windowsAfter c latest axis
  = pushWindow (axisValue latest axis) (smoothingBuffer c axis).
Proof. reflexivity. Qed.

Lemma pushWindow_spec v window :
  (len window <= 5)%Z ->
  pushWindow v window
  = (if (len window =? 5)%Z then tl window else window) ++ [v].
Proof.
  intro H. unfold pushWindow. apply push_then_shift; [lia | exact H].
Qed.

(** After [j] pushes of [v], [j <= 5], the window ends in [j] copies of
    [v] and holds at most 5 values. *)
Lemma pushWindow_iter v j :
  (j <= 5)%nat ->
  forall window, (len window <= 5)%Z ->
    exists pre,
      Nat.iter j (pushWindow v) window = pre ++ repeat v j /\
      (length pre + j <= 5)%nat.
Proof.
  induction j as [|j IH]; intros Hj window Hlen.
  - exists window. simpl. rewrite app_nil_r. unfold len in Hlen.
    split; [reflexivity | lia].
  - destruct (IH ltac:(lia) window Hlen) as (pre & Hpre & Hbound).
    simpl Nat.iter. rewrite Hpre.
    rewrite pushWindow_spec
      by (unfold len; rewrite length_app, repeat_length; lia).
    assert (Hrep : repeat v j ++ [v] = repeat v (S j)).
    { clear. induction j as [|j IHj]; [reflexivity|].
      simpl. rewrite IHj. reflexivity. }
    destruct (len (pre ++ repeat v j) =? 5)%Z eqn:E.
    + apply Z.eqb_eq in E. unfold len in E.
      rewrite length_app, repeat_length in E.
      destruct pre as [|a pre]; [simpl in E; lia|].
      exists pre. cbn [app tl]. rewrite <- app_assoc, Hrep.
      split; [reflexivity|]. simpl in E. lia.
    + apply Z.eqb_neq in E. unfold len in E.
      rewrite length_app, repeat_length in E.
      exists pre. rewrite <- app_assoc, Hrep.
      split; [reflexivity|]. lia.
Qed.

Lemma frames_controller k latest :
  forall w,
    motionBuffer (controller (frames k latest w))
    = motionBuffer (controller w) /\
    lastMotion (controller (frames k latest w)) = lastMotion (controller w) /\
    (forall axis,
       smoothingBuffer (controller (frames k latest w)) axis
       = Nat.iter k (pushWindow (axisValue latest axis))
                  (smoothingBuffer (controller w) axis)) /\
    history (nav (frames k latest w)) = history (nav w) /\
    currentHistoryIndex (nav (frames k latest w))
    = currentHistoryIndex (nav w) /\
    zoom (camera (nav (frames k latest w))) = zoom (camera (nav w)) /\
    fov (camera (nav (frames k latest w))) = fov (camera (nav w)) /\
    settings (frames k latest w) = settings w.
Proof.
  induction k as [|k IH]; intro w.
  - simpl. repeat split; reflexivity.
  - simpl frames. destruct (IH (frameStep latest w))
      as (H1 & H2 & H3 & H4 & H5 & H6 & H7 & H8).
    rewrite H1, H2, H4, H5, H6, H7, H8.
    repeat split; try reflexivity.
    intro axis. rewrite H3. simpl smoothingBuffer.
    rewrite windowsAfter_pushWindow.
    clear. induction k as [|k IHk]; [reflexivity|].
    simpl. rewrite IHk. reflexivity.
Qed.

(** With the motion buffer left alone, [k] frames are [k] frame steps on
    its newest sample. *)
Lemma run_times_processMotion k latest :
  forall w,
    motionBuffer (controller w) <> [] ->
    last (motionBuffer (controller w)) latest = latest ->
    run (times k processMotion) w = Some (frames k latest w).
Proof.
  induction k as [|k IH]; intros w Hne Hlast; [reflexivity|].
  simpl times. rewrite run_seq.
  rewrite (run_processMotion_latest w latest Hne), Hlast.
  simpl frames. apply IH; simpl; assumption.
Qed.

(** X16. The smoothing remembers five frames. From any state with a
    non-empty motion buffer and windows of at most five values, five frames
    of [processMotion] without new input leave every smoothing window
    holding five copies of the matching axis of the newest sample, and the
    motion buffer as it was: nothing older than five frames has any
    influence on the smoothed value. *)
Theorem smoothing_window_refills_in_five_frames
  (w : World) (latest : SpaceMouseMotion.t)
  (Hne : motionBuffer (controller w) <> [])
  (Hlast : last (motionBuffer (controller w)) latest = latest)
  (Hwin : forall axis,
            (length (smoothingBuffer (controller w) axis) <= 5)%nat) :
  exists w',
    run (times 5 processMotion) w = Some w' /\
    (forall axis,
       smoothingBuffer (controller w') axis
       = repeat (axisValue latest axis) 5) /\
    motionBuffer (controller w') = motionBuffer (controller w) /\
    history (nav w') = history (nav w).
Proof.
  exists (frames 5 latest w).
  split; [apply run_times_processMotion; assumption|].
  destruct (frames_controller 5 latest w) as (H1 & _ & H3 & H4 & _).
  split; [|split; [exact H1 | exact H4]].
  intro axis. rewrite H3.
  destruct (pushWindow_iter (axisValue latest axis) 5 ltac:(lia)
              (smoothingBuffer (controller w) axis))
    as (pre & Hpre & Hbound).
  { unfold len. specialize (Hwin axis). lia. }
  rewrite Hpre. destruct pre; [reflexivity | simpl in Hbound; lia].
Qed.

Lemma smoothing_window_refills_in_five_frames_witness :
  let m := SpaceMouseMotion.mk 1 0 0 0 0 0 0 in
  let p := processedMotionOf defaultSettings m in
  exists w1 w2,
    run (handleMotion m) (startWorld defaultSettings) = Some w1 /\
    run (times 5 processMotion) w1 = Some w2 /\
    smoothingBuffer (controller w2) ax_x = repeat (axisValue p ax_x) 5.
Proof.
  intros m p.
  assert (H1 : run (handleMotion m) (startWorld defaultSettings)
               = Some (mkWorld (withSpaceMouseActive true initialNavigation)
                               [] defaultSettings
                               (mkController [p] (Some p) (fun _ => []))
                               1))
    by reflexivity.
  eexists. 
  destruct (smoothing_window_refills_in_five_frames
              (mkWorld (withSpaceMouseActive true initialNavigation)
                       [] defaultSettings
                       (mkController [p] (Some p) (fun _ => [])) 1) p)
    as (w2 & H2 & Hwin & _).
  - discriminate.
  - reflexivity.
  - intro axis. simpl. lia.
  - exists w2. split; [exact H1|]. split; [exact H2 | apply Hwin].
Defined.







(** ** The sounds *)

(** X18. The master volume is applied twice. After [initialize], with the
    sound enabled, [playSound] starts exactly one source for any event; its
    own gain is the clip volume times the master volume, times the volume of
    the event for the five events that have one. The source plays through
    the master node, whose gain [initialize] set to the master volume as
    well, so what reaches the destination is the clip volume times the
    square of the master volume (times the event volume). With all volume
    settings in [0,1] the gain of a source never exceeds its clip volume. *)
Theorem master_volume_applied_twice
  (st : Audio.AudioSettings) (state : Audio.ContextState)
  (this : Audio.AudioManager) (event : Audio.AudioEvent)
  (Hon : Audio.enabled st = true) :
  let ready := Audio.initialize st state this in
  let clipVolume := Audio.volume (Audio.generatedClip event) in
  let gain := Audio.eventVolume st event (clipVolume * Audio.masterVolume st) in
  Audio.started (Audio.playSound st event ready)
  = Audio.started this ++ [(event, gain)] /\
  Audio.outputLevel (Audio.playSound st event ready) gain
  == Audio.eventVolume st event
       (clipVolume * Audio.masterVolume st * Audio.masterVolume st) /\
  (0 <= Audio.masterVolume st <= 1 ->
   0 <= Audio.conceptCreatedVolume st <= 1 ->
   0 <= Audio.conceptExpandedVolume st <= 1 ->
   0 <= Audio.conceptSelectedVolume st <= 1 ->
   0 <= Audio.conceptHoveredVolume st <= 1 ->
   0 <= Audio.navigationVolume st <= 1 ->
   0 <= gain /\ gain <= clipVolume /\ clipVolume <= 8 # 10).
Proof.
  cbv zeta. unfold Audio.initialize, Audio.updateMasterVolume,
    Audio.generateAudioClips, Audio.playSound, Audio.outputLevel.
  cbn [Audio.audioContext Audio.clips Audio.isInitialized Audio.masterGain
       Audio.started]. rewrite Hon.
  cbn [negb Audio.audioContext Audio.clips Audio.isInitialized
       Audio.masterGain Audio.started].
  assert (Hbuf : Audio.buffer (Audio.generatedClip event) = true)
    by (destruct event; reflexivity).
  rewrite Hbuf.
  cbn [negb Audio.audioContext Audio.clips Audio.isInitialized
       Audio.masterGain Audio.started].
  split; [reflexivity|]. split.
  - destruct event; unfold Audio.eventVolume; ring.
  - intros Hm H1 H2 H3 H4 H5.
    assert (Hclip : 0 <= Audio.volume (Audio.generatedClip event)
                    /\ Audio.volume (Audio.generatedClip event) <= 8 # 10)
      by (destruct event; split; vm_compute; discriminate).
    destruct Hclip as [Hc0 Hc1].
    set (c := Audio.volume (Audio.generatedClip event)) in *.
    set (m := Audio.masterVolume st) in *.
    assert (Hcm0 : 0 <= c * m) by (apply Qmult_le_0_compat; lra).
    assert (Hcm1 : 0 <= c * (1 - m)) by (apply Qmult_le_0_compat; lra).
    split; [|split; [|exact Hc1]].
    + destruct event; unfold Audio.eventVolume; try exact Hcm0;
        apply Qmult_le_0_compat; lra.
    + destruct event; unfold Audio.eventVolume; try lra;
        match goal with
        | |- c * m * ?v <= c =>
            assert (0 <= (c * m) * (1 - v))
              by (apply Qmult_le_0_compat; lra); lra
        end.
Qed.

Lemma master_volume_applied_twice_witness :
  let ready := Audio.initialize Audio.defaultAudioSettings Audio.running
                 Audio.fresh in
  let played := Audio.playNavigationMove Audio.defaultAudioSettings ready in
  Audio.started played
  = [(Audio.NavigationMove, (4 # 10) * (7 # 10) * (4 # 10))]
  /\ Audio.outputLevel played ((4 # 10) * (7 # 10) * (4 # 10)) == 784 # 10000.
Proof.
  destruct (master_volume_applied_twice Audio.defaultAudioSettings
              Audio.running Audio.fresh Audio.NavigationMove eq_refl)
    as (Hs & Hl & _).
  split; [exact Hs|]. cbv zeta. unfold Audio.playNavigationMove.
  rewrite Hl. reflexivity.
Defined.

(** X19. When no sound starts, and what muting does. [playSound] changes
    nothing before [initialize], nothing while the settings have the sound
    disabled, and nothing for an event without a clip. [setEnabled false]
    only sets the gain of the master node to 0: sources are still started,
    at the level 0, and an [updateMasterVolume] afterwards puts the master
    gain back to the master volume, so the sound is audible again although
    nothing re-enabled it. *)
Theorem silence_and_mute
  (st : Audio.AudioSettings) (state : Audio.ContextState)
  (this : Audio.AudioManager) (event : Audio.AudioEvent) :
  Audio.playSound st event Audio.fresh = Audio.fresh /\
  (Audio.enabled st = false -> Audio.playSound st event this = this) /\
  (Audio.isInitialized this = false ->
   Audio.playSound st event this = this) /\
  (Audio.clips this event = None -> Audio.playSound st event this = this) /\
  (Audio.enabled st = true ->
   let muted := Audio.setEnabled st false (Audio.initialize st state this) in
   let gain := Audio.eventVolume st event
                 (Audio.volume (Audio.generatedClip event)
                  * Audio.masterVolume st) in
   Audio.started (Audio.playSound st event muted)
   = Audio.started this ++ [(event, gain)] /\
   Audio.outputLevel (Audio.playSound st event muted) gain == 0 /\
   Audio.outputLevel
     (Audio.updateMasterVolume st (Audio.playSound st event muted)) gain
   == gain * Audio.masterVolume st).
Proof.
  split; [reflexivity|]. split; [|split; [|split]].
  - intro H. unfold Audio.playSound. rewrite H.
    destruct (Audio.isInitialized this), (Audio.audioContext this),
      (Audio.masterGain this); reflexivity.
  - intro H. unfold Audio.playSound. rewrite H. reflexivity.
  - intro H. unfold Audio.playSound. rewrite H.
    destruct (Audio.isInitialized this), (Audio.audioContext this),
      (Audio.masterGain this), (negb (Audio.enabled st)); reflexivity.
  - intro Hon. cbv zeta.
    unfold Audio.initialize, Audio.updateMasterVolume, Audio.setEnabled,
      Audio.generateAudioClips, Audio.playSound, Audio.outputLevel.
    cbn [Audio.audioContext Audio.clips Audio.isInitialized
         Audio.masterGain Audio.started]. rewrite Hon.
    cbn [negb Audio.audioContext Audio.clips Audio.isInitialized
         Audio.masterGain Audio.started].
    assert (Hbuf : Audio.buffer (Audio.generatedClip event) = true)
      by (destruct event; reflexivity).
    rewrite Hbuf.
    cbn [negb Audio.audioContext Audio.clips Audio.isInitialized
         Audio.masterGain Audio.started].
    split; [reflexivity|]. split; [ring | reflexivity].
Qed.

Lemma silence_and_mute_witness :
  let st := Audio.defaultAudioSettings in
  let muted := Audio.setEnabled st false
                 (Audio.initialize st Audio.running Audio.fresh) in
  let gain := (4 # 10) * (7 # 10) * (4 # 10) in
  Audio.outputLevel (Audio.playSound st Audio.NavigationMove muted) gain == 0
  /\ Audio.outputLevel
       (Audio.updateMasterVolume st
          (Audio.playSound st Audio.NavigationMove muted)) gain
     == 784 # 10000.
Proof.
  destruct (silence_and_mute Audio.defaultAudioSettings Audio.running
              Audio.fresh Audio.NavigationMove)
    as (_ & _ & _ & _ & Hmute).
  destruct (Hmute eq_refl) as (_ & H0 & H1).
  split; [exact H0|]. cbv zeta. rewrite H1. reflexivity.
Defined.
